(** * BPF super sockets of scapy ([scapy/arch/bpf/supersocket.py])

    A shallow embedding of the frame decoder, the receive queue, the
    receive paths, the routed send and the multiplexer, with the
    properties of the transport proved against it.

    Conventions of the embedding:
    - Python [str] byte strings are [list byte]; Python integers are [Z]
      (unbounded, so no wrap-around is written out);
    - a method that can raise returns an [Outcome]; the recursion of
      [extract_frames] is bounded by a fuel argument and running out of
      fuel is the outcome [Diverge] (the Python stack is taken unbounded);
    - list objects live in a heap of locations: [received_frames] is bound
      once, in the class body, so every instance resolves the attribute to
      the location held by the class;
    - system calls append to a trace, and their results come from a kernel
      oracle that sees the trace so far. *)

From Stdlib Require Import ZArith QArith Lia List Bool.
From Stdlib Require Import Strings.Byte.
From stdpp Require Import base option list gmap strings relations pretty.

Local Open Scope Z_scope.

(** ** Byte strings, slices and [struct.unpack] *)

Definition bytes := list byte.

(** [s[i:j]] for non-negative [i] and [j] (no offset of this module is
    negative): out-of-range bounds are clipped, as Python does. *)
Definition py_slice (s : bytes) (i j : Z) : bytes :=
  take (Z.to_nat (j - i)) (drop (Z.to_nat i) s).

(** [s[i:]] for non-negative [i]. *)
Definition py_from (s : bytes) (i : Z) : bytes := drop (Z.to_nat i) s.

Inductive ByteOrder := LittleEndian | BigEndian.

Fixpoint le_value (s : bytes) : Z :=
  match s with
  | [] => 0
  | b :: r => Z.of_N (Byte.to_N b) + 256 * le_value r
  end.

Definition native_value (o : ByteOrder) (s : bytes) : Z :=
  match o with
  | LittleEndian => le_value s
  | BigEndian => le_value (rev s)
  end.

(** [struct.unpack(fmt, s)[0]] for a one-field native format of [size]
    bytes: [None] stands for [struct.error], raised when [s] has not
    exactly [size] bytes. *)
Definition struct_unpack (o : ByteOrder) (size : nat) (s : bytes) : option Z :=
  if decide (length s = size) then Some (native_value o s) else None.

(** ** Platform constants and configuration *)

(** Constants of [scapy.arch.consts], [scapy.arch.bpf.consts], [os] and
    [errno], which the module imports. *)
Record Platform := {
  FREEBSD : bool;
  NETBSD : bool;
  byteorder : ByteOrder;
  O_NONBLOCK : Z;
  EAGAIN : Z;
  BPF_BUFFER_LENGTH : Z;
}.

Definition unpack_I (plat : Platform) := struct_unpack (byteorder plat) 4.
Definition unpack_H (plat : Platform) := struct_unpack (byteorder plat) 2.

(** The fields of [scapy.config.conf] read by the module. Routing
    lookups return [(iff, a, gw)]. *)
Record Conf := {
  debug_dissector : bool;
  conf_iface : string;
  route : string -> string * string * string;
  route6 : string -> string * string * string;
}.

(** ** Packets

    The packet framework is a collaborator: the module only builds
    packets from bytes, takes their payload, tests their class, stacks a
    link-layer header on them and serialises them. *)

Inductive LinkClass := Ether | Loopback | OtherL2 (dlt : Z).

Class Scapy (Packet : Type) := {
  (** [Raw(s)] *)
  Raw : bytes -> Packet;
  (** [cls(s)], [None] when the constructor raises *)
  dissect : LinkClass -> bytes -> option Packet;
  (** [pkt.payload] *)
  payload : Packet -> Packet;
  (** [isinstance(pkt, IP)] and [isinstance(pkt, IPv6)] *)
  is_IP : Packet -> bool;
  is_IPv6 : Packet -> bool;
  (** [pkt.dst] *)
  dst : Packet -> string;
  (** [cls() / pkt] *)
  encap : LinkClass -> Packet -> Packet;
  (** [str(pkt)] *)
  str : Packet -> bytes;
}.

(** ** Sockets, descriptors, the heap and the kernel *)

Inductive SockClass := L2bpfListenSocket | L2bpfSocket | L3bpfSocket.

(** [issubclass(c, d)] for the three socket classes. *)
Definition issubclass (c d : SockClass) : bool :=
  match d, c with
  | L2bpfListenSocket, _ => true
  | L2bpfSocket, (L2bpfSocket | L3bpfSocket) => true
  | L3bpfSocket, L3bpfSocket => true
  | _, _ => false
  end.

Definition loc := nat.

(** The instance attributes of an open socket. [own_received_frames] is
    the entry of the instance dictionary for [received_frames]: no method
    binds it, so [__init__] leaves it absent. *)
Record Sock := {
  sock_class : SockClass;
  ins : nat;
  iface : string;
  assigned_interface : string;
  fd_flags : option Z;
  guessed_cls : LinkClass;
  own_received_frames : option loc;
}.

Definition isinstance (self : Sock) (c : SockClass) : bool :=
  issubclass (sock_class self) c.

(** What a caller may put in the list given to [bpf_select]. *)
Inductive Desc := DSock (s : Sock) | DFile (fd : nat).

Inductive Syscall :=
| SysRead (fd : nat) (n : Z)
| SysGetFl (fd : nat)
| SysSetFl (fd : nat) (flags : Z)
| SysBIOCSETIF (fd : nat) (iff : string)
| SysWrite (fd : nat) (s : bytes)
| SysSelect (rlist : list Desc) (timeout : Q).

Inductive Event := Call (c : Syscall) | Warning (msg : string).

(** The kernel as an oracle on the history: whether a call fails (and
    with which errno), and what a successful read, write or select
    returns. *)
Record Kernel := {
  k_errno : list Event -> Syscall -> option Z;
  k_read : list Event -> nat -> Z -> bytes;
  k_write : list Event -> nat -> bytes -> Z;
  k_select : list Event -> list Desc -> Q -> list Desc;
}.

Inductive Exn :=
| DissectError
| StructError
| Scapy_Exception (msg : string)
| OSError (errno : Z).

Inductive Outcome (A : Type) :=
| Return (a : A)
| Raise (e : Exn)
| Diverge.
Arguments Return {A} a.
Arguments Raise {A} e.
Arguments Diverge {A}.

(** The location of the list created by the class body
    [received_frames = []] of [L2bpfListenSocket]. *)
Definition class_received_frames : loc := 0%nat.

Section Sockets.

Context {Packet : Type} `{!Scapy Packet}.

(** The mutable world: list objects, the status flags the kernel keeps
    for each open descriptor, and the trace of calls and warnings. *)
Record World := {
  heap : gmap loc (list Packet);
  kflags : gmap nat Z;
  trace : list Event;
}.

Definition set_heap (h : gmap loc (list Packet)) (w : World) : World :=
  {| heap := h; kflags := kflags w; trace := trace w |}.
Definition set_kflags (k : gmap nat Z) (w : World) : World :=
  {| heap := heap w; kflags := k; trace := trace w |}.
Definition log (e : Event) (w : World) : World :=
  {| heap := heap w; kflags := kflags w; trace := trace w ++ [e] |}.

Definition set_fd_flags (f : option Z) (self : Sock) : Sock :=
  {| sock_class := sock_class self; ins := ins self; iface := iface self;
     assigned_interface := assigned_interface self; fd_flags := f;
     guessed_cls := guessed_cls self;
     own_received_frames := own_received_frames self |}.
Definition set_assigned_interface (i : string) (self : Sock) : Sock :=
  {| sock_class := sock_class self; ins := ins self; iface := iface self;
     assigned_interface := i; fd_flags := fd_flags self;
     guessed_cls := guessed_cls self;
     own_received_frames := own_received_frames self |}.

(** Attribute lookup [self.received_frames]: the instance dictionary
    first, then the class. *)
Definition received_frames_loc (self : Sock) : loc :=
  default class_received_frames (own_received_frames self).

Definition received_frames (self : Sock) (w : World) : list Packet :=
  default [] (heap w !! received_frames_loc self).

(** [l.append(x)] and the removal done by [l.pop(0)] on the list object
    at a location. *)
Definition list_append (l : loc) (x : Packet) (w : World) : World :=
  set_heap (<[l := default [] (heap w !! l) ++ [x]]> (heap w)) w.
Definition list_store (l : loc) (xs : list Packet) (w : World) : World :=
  set_heap (<[l := xs]> (heap w)) w.

Variable plat : Platform.
Variable conf : Conf.
Variable K : Kernel.

(** *** [L2bpfListenSocket] *)

Definition buffered_frames (self : Sock) (w : World) : Z :=
  Z.of_nat (length (received_frames self w)).

Definition get_frame (self : Sock) (w : World) : option Packet * World :=
  match received_frames self w with
  | pkt :: rest =>
      let w := list_store (received_frames_loc self) rest w in
      let pkt := if isinstance self L3bpfSocket then payload pkt else pkt in
      (Some pkt, w)
  | [] => (None, w)
  end.

Definition bpf_align (bh_h bh_c : Z) : Z :=
  let BPF_ALIGNMENT := if FREEBSD plat || NETBSD plat then 8 else 4 in
  let x := bh_h + bh_c in
  Z.land (x + (BPF_ALIGNMENT - 1)) (Z.lnot (BPF_ALIGNMENT - 1)).

(** The block "Parse the BPF header" of [extract_frames]: the three
    unpacks in source order, [None] when one of them raises
    [struct.error]. The result is [(bh_caplen, bh_datalen, bh_hdrlen)]. *)
Definition bpf_header (bpf_buffer : bytes) : option (Z * Z * Z) :=
  let bh_tstamp_offset := if FREEBSD plat || NETBSD plat then 16 else 8 in
  match unpack_I plat (py_slice bpf_buffer bh_tstamp_offset (bh_tstamp_offset + 4)) with
  | None => None
  | Some bh_caplen =>
      let next_offset := bh_tstamp_offset + 4 in
      match unpack_I plat (py_slice bpf_buffer next_offset (next_offset + 4)) with
      | None => None
      | Some bh_datalen =>
          let next_offset := next_offset + 4 in
          match unpack_H plat (py_slice bpf_buffer next_offset (next_offset + 2)) with
          | None => None
          | Some bh_hdrlen => Some (bh_caplen, bh_datalen, bh_hdrlen)
          end
      end
  end.

(** The block "Get and store the Scapy object" up to the binding of
    [pkt]: [None] when the exception of the constructor is re-raised. *)
Definition build_frame (self : Sock) (frame_str : bytes) : option Packet :=
  match dissect (guessed_cls self) frame_str with
  | Some pkt => Some pkt
  | None => if debug_dissector conf then None else Some (Raw frame_str)
  end.

(** [extract_frames]: the result is the outcome, the world and the
    number of activations of the method that were entered. *)
Fixpoint extract_frames (fuel : nat) (self : Sock) (bpf_buffer : bytes)
    (w : World) : Outcome unit * World * nat :=
  match fuel with
  | O => (Diverge, w, 0%nat)
  | S fuel =>
      let len_bb := Z.of_nat (length bpf_buffer) in
      if len_bb <? 20 then (Return tt, w, 1%nat) else
      match bpf_header bpf_buffer with
      | None => (Raise StructError, w, 1%nat)
      | Some (bh_caplen, bh_datalen, bh_hdrlen) =>
          if bh_datalen =? 0 then (Return tt, w, 1%nat) else
          let frame_str := py_slice bpf_buffer bh_hdrlen (bh_hdrlen + bh_caplen) in
          match build_frame self frame_str with
          | None => (Raise DissectError, w, 1%nat)
          | Some pkt =>
              let w := list_append (received_frames_loc self) pkt w in
              let end_ := bpf_align bh_hdrlen bh_caplen in
              if len_bb - end_ >=? 20 then
                let '(o, w, d) := extract_frames fuel self (py_from bpf_buffer end_) w in
                (o, w, S d)
              else (Return tt, w, 1%nat)
          end
      end
  end.


(** Truth value of a Python integer. *)
Definition truthy (n : Z) : bool := negb (n =? 0).

(** [os.read(fd, n)]: the bytes read, or the errno of the
    [EnvironmentError] raised. *)
Definition os_read (fd : nat) (n : Z) (w : World) : (bytes + Z) * World :=
  let c := SysRead fd n in
  (match k_errno K (trace w) c with
   | Some e => inr e
   | None => inl (k_read K (trace w) fd n)
   end, log (Call c) w).

Definition recv (fuel : nat) (self : Sock) (x : Z) (w : World)
    : Outcome (option Packet) * World :=
  if truthy (buffered_frames self w) then
    let '(pkt, w) := get_frame self w in (Return pkt, w)
  else
    match os_read (ins self) x w with
    | (inr e, w) =>
        if e =? EAGAIN plat then (Return None, w)
        else (Return None, log (Warning "BPF recv()") w)
    | (inl bpf_buffer, w) =>
        match extract_frames fuel self bpf_buffer w with
        | (Return _, w, _) =>
            let '(pkt, w) := get_frame self w in (Return pkt, w)
        | (Raise e, w, _) => (Raise e, w)
        | (Diverge, w, _) => (Diverge, w)
        end
    end.

(** *** [_L2bpfSocket.set_nonblock] *)

(** [fcntl.fcntl(fd, F_GETFL)]: [None] when it raises [IOError]. *)
Definition fcntl_getfl (fd : nat) (w : World) : option Z * World :=
  let c := SysGetFl fd in
  (match k_errno K (trace w) c with
   | Some _ => None
   | None => kflags w !! fd
   end, log (Call c) w).

(** [fcntl.fcntl(fd, F_SETFL, flags)]: [false] when it raises. *)
Definition fcntl_setfl (fd : nat) (flags : Z) (w : World) : bool * World :=
  let c := SysSetFl fd flags in
  match k_errno K (trace w) c, kflags w !! fd with
  | None, Some _ =>
      (true, log (Call c) (set_kflags (<[fd := flags]> (kflags w)) w))
  | _, _ => (false, log (Call c) w)
  end.

Definition set_nonblock (self : Sock) (set_flag : bool) (w : World)
    : Sock * World :=
  let current :=
    match fd_flags self with
    | None =>
        match fcntl_getfl (ins self) w with
        | (Some f, w) => (Some f, set_fd_flags (Some f) self, w)
        | (None, w) =>
            (None, self,
             log (Warning "Can't get flags on this file descriptor !") w)
        end
    | Some f => (Some f, self, w)
    end in
  match current with
  | (None, self, w) => (self, w)
  | (Some flags, self, w) =>
      let new_fd_flags :=
        if set_flag then Z.lor flags (O_NONBLOCK plat)
        else Z.land flags (Z.lnot (O_NONBLOCK plat)) in
      match fcntl_setfl (ins self) new_fd_flags w with
      | (true, w) => (set_fd_flags (Some new_fd_flags) self, w)
      | (false, w) =>
          (self, log (Warning "Can't set flags on this file descriptor !") w)
      end
  end.

(** *** [L2bpfSocket] *)

(** [os.write(self.outs, s)], where [outs] is [ins]. *)
Definition send (self : Sock) (s : bytes) (w : World) : Outcome Z * World :=
  let c := SysWrite (ins self) s in
  (match k_errno K (trace w) c with
   | Some e => Raise (OSError e)
   | None => Return (k_write K (trace w) (ins self) s)
   end, log (Call c) w).

Definition nonblock_recv (fuel : nat) (self : Sock) (w : World)
    : Outcome (option Packet) * Sock * World :=
  if truthy (buffered_frames self w) then
    let '(pkt, w) := get_frame self w in (Return pkt, self, w)
  else
    let '(self, w) := set_nonblock self true w in
    match recv fuel self (BPF_BUFFER_LENGTH plat) w with
    | (Return pkt, w) =>
        let '(self, w) := set_nonblock self false w in (Return pkt, self, w)
    | (Raise e, w) => (Raise e, self, w)
    | (Diverge, w) => (Diverge, self, w)
    end.

(** *** [L3bpfSocket] *)

(** [fcntl.ioctl(fd, BIOCSETIF, ...)]: [false] when it raises
    [IOError]. *)
Definition ioctl_BIOCSETIF (fd : nat) (iff_ : string) (w : World)
    : bool * World :=
  let c := SysBIOCSETIF fd iff_ in
  (match k_errno K (trace w) c with Some _ => false | None => true end,
   log (Call c) w).

(** The two statements that choose the output interface in
    [L3bpfSocket.send]: an [if] without [else], then an [if]/[else];
    the second binding of [iff_] is the one that is used. *)
Definition send_iff (pkt : Packet) : string :=
  let iff_ :=
    if is_IPv6 pkt then Some (route6 conf (dst pkt)).1.1 else None in
  let iff_ :=
    if is_IP pkt then Some (route conf (dst pkt)).1.1
    else Some (conf_iface conf) in
  default ""%string iff_.

(** [L3bpfSocket.send]; the time stamp written on [pkt] is left out. *)
Definition l3_send (self : Sock) (pkt : Packet) (w : World)
    : Outcome unit * Sock * World :=
  let iff_ := send_iff pkt in
  let bound :=
    if bool_decide (assigned_interface self ≠ iff_) then
      match ioctl_BIOCSETIF (ins self) iff_ w with
      | (true, w) => (true, set_assigned_interface iff_ self, w)
      | (false, w) => (false, self, w)
      end
    else (true, self, w) in
  match bound with
  | (false, self, w) =>
      (Raise (Scapy_Exception "BIOCSETIF failed"), self, w)
  | (true, self, w) =>
      let frame := str (encap (guessed_cls self) pkt) in
      match send self frame w with
      | (Return _, w) => (Return tt, self, w)
      | (Raise e, w) => (Raise e, self, w)
      | (Diverge, w) => (Diverge, self, w)
      end
  end.

(** *** Socket manipulation functions *)

Definition isBPFSocket (obj : Desc) : bool :=
  match obj with
  | DSock s =>
      isinstance s L2bpfListenSocket || isinstance s L2bpfListenSocket
      || isinstance s L3bpfSocket
  | DFile _ => false
  end.

(** [tmp_fd.buffered_frames()], called on BPF sockets only. *)
Definition desc_buffered (tmp_fd : Desc) (w : World) : bool :=
  match tmp_fd with
  | DSock s => truthy (buffered_frames s w)
  | DFile _ => false
  end.

(** One turn of the [for] loop of [bpf_select] on the pair
    [(bpf_scks_buffered, select_fds)]. *)
Definition select_turn (w : World) (acc : list Desc * list Desc)
    (tmp_fd : Desc) : list Desc * list Desc :=
  let '(bpf_scks_buffered, select_fds) := acc in
  if isBPFSocket tmp_fd && desc_buffered tmp_fd w
  then (bpf_scks_buffered ++ [tmp_fd], select_fds)
  else (bpf_scks_buffered, select_fds ++ [tmp_fd]).

(** The float literal [0.05], which is handed to [select] untouched. *)
Definition default_timeout : Q := 5 # 100.

(** [select(rlist, [], [], timeout)[0]]. *)
Definition py_select (rlist : list Desc) (timeout : Q) (w : World)
    : Outcome (list Desc) * World :=
  let c := SysSelect rlist timeout in
  (match k_errno K (trace w) c with
   | Some e => Raise (OSError e)
   | None => Return (k_select K (trace w) rlist timeout)
   end, log (Call c) w).

Definition bpf_select (fds_list : list Desc) (timeout : option Q) (w : World)
    : Outcome (list Desc) * World :=
  let '(bpf_scks_buffered, select_fds) :=
    fold_left (select_turn w) fds_list ([], []) in
  if truthy (Z.of_nat (length select_fds)) then
    let timeout := default default_timeout timeout in
    match py_select select_fds timeout w with
    | (Return ready_list, w) => (Return (bpf_scks_buffered ++ ready_list), w)
    | (Raise e, w) => (Raise e, w)
    | (Diverge, w) => (Diverge, w)
    end
  else (Return bpf_scks_buffered, w).

End Sockets.

(** ** Opening, configuring and closing the device: [_L2bpfSocket]

    The constructor and the housekeeping methods talk to the device
    through ioctls and through two functions of [scapy.arch.bpf.core],
    [get_dev_bpf] and [attach_filter], which are taken as calls that
    succeed or raise. Calls and warnings are logged apart; the device
    answers from the calls made so far. *)

Inductive Ioctl :=
| BIOCSBLEN (len : Z)
| BIOCSETIF (ifname : string)
| BIOCPROMISC (value : Z)
| BIOCIMMEDIATE (value : Z)
| BIOCSHDRCMPLT (value : Z)
| BIOCGDLT
| BIOCGSTATS
| BIOCGBLEN.

Inductive DevCall :=
| GetDevBpf
| DevIoctl (fd : nat) (op : Ioctl)
| AttachFilter (fd : nat) (ifname filter : string)
| OsClose (fd : nat).

Record DevLog := { calls : list DevCall; warnings : list string }.

(** [d_errno] tells whether a call fails; [d_handle] is the pair
    [(descriptor, device number)] that [get_dev_bpf] returns; [d_value]
    holds the fields unpacked from the buffer that an ioctl returns (the
    buffer has the size of the argument, so the unpack itself cannot
    fail). *)
Record DevKernel := {
  d_errno : list DevCall -> DevCall -> option Z;
  d_handle : list DevCall -> nat * Z;
  d_value : list DevCall -> nat -> Ioctl -> Z * Z;
}.

(** An exception of the module, or whatever a function of
    [scapy.arch.bpf.core] raised. *)
Inductive DevExn := Known (e : Exn) | Collaborator (code : Z).

Inductive DevResult (A : Type) := DevOk (a : A) | DevRaise (e : DevExn).
Arguments DevOk {A} a.
Arguments DevRaise {A} e.

(** Computations that log calls and may raise. *)
Definition Dev (A : Type) : Type := DevLog -> DevResult A * DevLog.


(** The fields of [scapy.config.conf] that only the constructor reads. *)
Record SocketConf := {
  sniff_promisc : bool;
  except_filter : string;
  l2types : gmap Z LinkClass;
}.

(** The two attributes that [close] and [fileno] work on. *)
Record Handle := { h_closed : bool; h_ins : option nat }.

Section Device.

Variable plat : Platform.
Variable OPENBSD : bool.
Variable conf : Conf.
Variable sconf : SocketConf.
Variable D : DevKernel.

Definition dev_call (c : DevCall) (l : DevLog) : option Z * DevLog :=
  (d_errno D (calls l) c, {| calls := calls l ++ [c]; warnings := warnings l |}).

Definition dev_warning (msg : string) (l : DevLog) : DevLog :=
  {| calls := calls l; warnings := warnings l ++ [msg] |}.





Definition guess_cls (fd : nat) : Dev LinkClass :=
  fun l =>
    match dev_call (DevIoctl fd BIOCGDLT) l with
    | (Some _, l') =>
        (DevOk Ether,
         dev_warning "BIOCGDLT failed: unable to guess type. Using Ethernet !"
           l')
    | (None, l') =>
        let ret := (d_value D (calls l) fd BIOCGDLT).1 in
        (* the name Loopback is taken to be bound by the star import *)
        if OPENBSD && (ret =? 12) then (DevOk Loopback, l')
        else
          match l2types sconf !! ret with
          | Some cls => (DevOk cls, l')
          | None =>
              (DevOk Ether,
               dev_warning "Unable to guess type. Using Ethernet !" l')
          end
    end.

(** Truth value of a Python string. *)
Definition nonempty (s : string) : bool :=
  match s with EmptyString => false | String _ _ => true end.

(** The block "Configure the BPF filter" of the constructor up to the
    call: the expression handed to [attach_filter], or [None] when the
    call is not made. *)
Definition init_filter (filter : option string) (nofilter : bool)
    : option string :=
  if nofilter then None
  else if nonempty (except_filter sconf) then
    match filter with
    | Some f =>
        if nonempty f
        then Some ("(" +:+ f +:+ ") and not (" +:+ except_filter sconf +:+ ")")
        else Some ("not (" +:+ except_filter sconf +:+ ")")
    | None => Some ("not (" +:+ except_filter sconf +:+ ")")
    end
  else filter.


(** [get_stats]: [(received, dropped)], or [(None, None)] with a
    warning. *)
Definition get_stats (fd : nat) (l : DevLog)
    : (option Z * option Z) * DevLog :=
  match dev_call (DevIoctl fd BIOCGSTATS) l with
  | (None, l') =>
      let ret := d_value D (calls l) fd BIOCGSTATS in
      ((Some ret.1, Some ret.2), l')
  | (Some _, l') =>
      ((None, None), dev_warning "Unable to get stats from BPF !" l')
  end.

(** [get_blen]: the buffer length, or [None] with a warning. *)
Definition get_blen (fd : nat) (l : DevLog) : option Z * DevLog :=
  match dev_call (DevIoctl fd BIOCGBLEN) l with
  | (None, l') => (Some (d_value D (calls l) fd BIOCGBLEN).1, l')
  | (Some _, l') =>
      (None, dev_warning "Unable to get the BPF buffer length" l')
  end.

Definition fileno (h : Handle) : option nat := h_ins h.

(** [close]; [os.close] may raise [OSError], which goes through and
    leaves the attributes as they were. [__del__] is this call. *)
Definition close (h : Handle) : Dev Handle :=
  fun l =>
    match h_ins h with
    | Some fd =>
        if negb (h_closed h) then
          match dev_call (OsClose fd) l with
          | (None, l) => (DevOk {| h_closed := true; h_ins := None |}, l)
          | (Some e, l) => (DevRaise (Known (OSError e)), l)
          end
        else (DevOk h, l)
    | None => (DevOk h, l)
    end.

End Device.

(** ** A small packet framework and two platforms, for concrete runs *)

Module Toy.

(** A packet is a stack of layers; each layer has a class name, a
    destination and the bytes it holds. *)
Inductive packet :=
| NoPayload
| Layer (name : string) (to : string) (load : bytes) (inner : packet).

Definition header_size (c : LinkClass) : nat :=
  match c with Ether => 14%nat | Loopback => 4%nat | OtherL2 _ => 0%nat end.

Definition class_name (c : LinkClass) : string :=
  match c with Ether => "Ether" | Loopback => "Loopback" | OtherL2 _ => "L2" end.

(** The constructor of a link class raises on a string shorter than its
    header. *)
Definition toy_dissect (c : LinkClass) (s : bytes) : option packet :=
  if (length s <? header_size c)%nat then None
  else Some (Layer (class_name c) "" (take (header_size c) s)
               (Layer "Raw" "" (drop (header_size c) s) NoPayload)).

Fixpoint toy_str (p : packet) : bytes :=
  match p with
  | NoPayload => []
  | Layer _ _ load inner => load ++ toy_str inner
  end.

#[export] Instance toy_scapy : Scapy packet := {|
  Raw s := Layer "Raw" "" s NoPayload;
  dissect := toy_dissect;
  payload p := match p with NoPayload => NoPayload | Layer _ _ _ q => q end;
  is_IP p := match p with Layer "IP" _ _ _ => true | _ => false end;
  is_IPv6 p := match p with Layer "IPv6" _ _ _ => true | _ => false end;
  dst p := match p with NoPayload => ""%string | Layer _ d _ _ => d end;
  encap c p := Layer (class_name c) "" (replicate (header_size c) x00) p;
  str := toy_str;
|}.

(** [struct.pack] of one little-endian field of [size] bytes. *)
Fixpoint le_bytes (size : nat) (v : Z) : bytes :=
  match size with
  | O => []
  | S n => default x00 (Byte.of_N (Z.to_N (v mod 256))) :: le_bytes n (v / 256)
  end.

Definition zeros (n : nat) : bytes := replicate n x00.

(** A narrow-timestamp platform (OpenBSD, Darwin) and a wide-timestamp
    one (FreeBSD), both little-endian. *)
Definition narrow : Platform :=
  {| FREEBSD := false; NETBSD := false; byteorder := LittleEndian;
     O_NONBLOCK := 4; EAGAIN := 35; BPF_BUFFER_LENGTH := 4096 |}.
Definition wide : Platform :=
  {| FREEBSD := true; NETBSD := false; byteorder := LittleEndian;
     O_NONBLOCK := 4; EAGAIN := 35; BPF_BUFFER_LENGTH := 4096 |}.

(** A header of [hdrlen] bytes for the given platform, followed by the
    captured bytes and padded to the alignment of the platform. *)
Definition frame (plat : Platform) (hdrlen : nat) (datalen : Z)
    (captured : bytes) : bytes :=
  let stamp := if FREEBSD plat || NETBSD plat then 16%nat else 8%nat in
  let fields :=
    zeros stamp ++ le_bytes 4 (Z.of_nat (length captured))
    ++ le_bytes 4 datalen ++ le_bytes 2 (Z.of_nat hdrlen) in
  let body := fields ++ zeros (hdrlen - length fields) ++ captured in
  body ++ zeros (Z.to_nat (bpf_align plat (Z.of_nat hdrlen)
                             (Z.of_nat (length captured)))
                 - length body).

Definition conf (debug : bool) : Conf :=
  {| debug_dissector := debug; conf_iface := "em0";
     route := fun d => ("em1", "192.0.2.1", "0.0.0.0")%string;
     route6 := fun d => ("em2", "2001:db8::1", "::")%string |}.

(** A kernel whose calls all succeed: reads return [data], select
    reports everything ready. *)
Definition kernel (data : bytes) : Kernel :=
  {| k_errno := fun _ _ => None;
     k_read := fun _ _ _ => data;
     k_write := fun _ _ s => Z.of_nat (length s);
     k_select := fun _ rl _ => rl |}.

(** A kernel whose reads fail with [errno]. *)
Definition kernel_read_fails (errno : Z) : Kernel :=
  {| k_errno := fun _ c => match c with SysRead _ _ => Some errno | _ => None end;
     k_read := fun _ _ _ => [];
     k_write := fun _ _ s => Z.of_nat (length s);
     k_select := fun _ rl _ => rl |}.

(** The socket that [__init__] builds on descriptor [fd] and interface
    [i]: the instance dictionary has no [received_frames]. *)
Definition socket (c : SockClass) (fd : nat) (i : string) : Sock :=
  {| sock_class := c; ins := fd; iface := i; assigned_interface := i;
     fd_flags := None; guessed_cls := Ether; own_received_frames := None |}.

(** The world after the class body has run and descriptors 3 and 4 are
    open with the given status flags. *)
Definition world (flags3 flags4 : Z) : World (Packet := packet) :=
  {| heap := {[ class_received_frames := [] ]};
     kflags := {[ 3%nat := flags3; 4%nat := flags4 ]};
     trace := [] |}.

End Toy.

(** ** Alignment arithmetic *)

Definition alignment (plat : Platform) : Z :=
  if FREEBSD plat || NETBSD plat then 8 else 4.

(** Offset just after the header-length field: 18 with the narrow
    timestamp, 26 with the wide one. *)
Definition header_end (plat : Platform) : Z :=
  (if FREEBSD plat || NETBSD plat then 16 else 8) + 10.

Lemma land_lnot_ones (y k : Z) :
  0 <= k -> Z.land y (Z.lnot (Z.ones k)) = y / 2 ^ k * 2 ^ k.
Proof.
  intros Hk. apply Z.bits_inj'. intros n Hn.
  rewrite Z.land_spec, Z.lnot_spec by lia.
  destruct (Z.lt_ge_cases n k) as [Hlt | Hge].
  - rewrite Z.ones_spec_low by lia.
    rewrite Z.mul_pow2_bits_low by lia. apply andb_false_r.
  - rewrite Z.ones_spec_high by lia. simpl. rewrite andb_true_r.
    rewrite Z.mul_pow2_bits by lia.
    rewrite <- Z.shiftr_div_pow2 by lia.
    rewrite Z.shiftr_spec by lia. f_equal. lia.
Qed.

Lemma bpf_align_round_up (plat : Platform) (h c : Z) :
  bpf_align plat h c
  = (h + c + (alignment plat - 1)) / alignment plat * alignment plat.
Proof.
  unfold bpf_align, alignment.
  destruct (FREEBSD plat || NETBSD plat).
  - change (8 - 1) with (Z.ones 3). rewrite land_lnot_ones by lia. reflexivity.
  - change (4 - 1) with (Z.ones 2). rewrite land_lnot_ones by lia. reflexivity.
Qed.

Lemma alignment_cases (plat : Platform) :
  alignment plat = 4 /\ header_end plat = 18
  \/ alignment plat = 8 /\ header_end plat = 26.
Proof.
  unfold alignment, header_end.
  destruct (FREEBSD plat || NETBSD plat); [right | left]; split; reflexivity.
Qed.

Lemma bpf_align_bounds (plat : Platform) (h c : Z) :
  h + c <= bpf_align plat h c < h + c + alignment plat.
Proof.
  rewrite bpf_align_round_up.
  destruct (alignment_cases plat) as [[-> _] | [-> _]];
    Z.div_mod_to_equations; lia.
Qed.

Lemma bpf_align_header (plat : Platform) (h c : Z) :
  header_end plat <= h -> 0 <= c -> 20 <= bpf_align plat h c.
Proof.
  intros Hh Hc. rewrite bpf_align_round_up.
  destruct (alignment_cases plat) as [[-> E] | [-> E]]; rewrite E in Hh;
    Z.div_mod_to_equations; lia.
Qed.

(** ** Slices and unpacked values *)

Lemma le_value_nonneg (s : bytes) : 0 <= le_value s.
Proof. induction s as [| b r IH]; simpl; lia. Qed.

Lemma struct_unpack_nonneg o size s v :
  struct_unpack o size s = Some v -> 0 <= v.
Proof.
  unfold struct_unpack. case_decide; [| discriminate].
  intros [= <-]. destruct o; apply le_value_nonneg.
Qed.

Lemma py_slice_app_l (s r : bytes) (i j : Z) :
  0 <= i -> j <= Z.of_nat (length s) ->
  py_slice (s ++ r) i j = py_slice s i j.
Proof.
  intros Hi Hj. unfold py_slice.
  destruct (Z.le_gt_cases j i) as [Hle | Hgt].
  - replace (Z.to_nat (j - i)) with 0%nat by lia. reflexivity.
  - rewrite drop_app_le by lia. apply take_app_le.
    rewrite length_drop. lia.
Qed.

Lemma py_from_app_length (s r : bytes) (n : Z) :
  n = Z.of_nat (length s) -> py_from (s ++ r) n = r.
Proof. intros ->. unfold py_from. rewrite Nat2Z.id. apply drop_app_length. Qed.

Lemma bpf_header_nonneg plat s c d h :
  bpf_header plat s = Some (c, d, h) -> 0 <= c /\ 0 <= d /\ 0 <= h.
Proof.
  unfold bpf_header, unpack_I, unpack_H. intros H.
  repeat match type of H with
  | match struct_unpack ?o ?n ?x with _ => _ end = _ =>
      let E := fresh "E" in
      destruct (struct_unpack o n x) eqn:E; [| discriminate H];
      apply struct_unpack_nonneg in E
  end.
  injection H as <- <- <-. auto.
Qed.

Lemma bpf_header_app_l plat (s r : bytes) :
  header_end plat <= Z.of_nat (length s) ->
  bpf_header plat (s ++ r) = bpf_header plat s.
Proof.
  intros Hlen. unfold bpf_header, header_end in *.
  destruct (FREEBSD plat || NETBSD plat);
    rewrite !py_slice_app_l by lia; reflexivity.
Qed.

(** ** The receive queue in the heap *)

Section Queue.

Context {Packet : Type} `{!Scapy Packet}.
Implicit Types (w : World (Packet := Packet)) (self : Sock) (pkt : Packet).

Lemma received_frames_append self l pkt w :
  received_frames_loc self = l ->
  received_frames self (list_append l pkt w) = received_frames self w ++ [pkt].
Proof.
  intros <-. unfold received_frames, list_append. simpl.
  rewrite lookup_insert_eq. reflexivity.
Qed.

Lemma received_frames_store self l xs w :
  received_frames_loc self = l ->
  received_frames self (list_store l xs w) = xs.
Proof.
  intros <-. unfold received_frames, list_store. simpl.
  rewrite lookup_insert_eq. reflexivity.
Qed.

Lemma trace_list_append l pkt w : trace (list_append l pkt w) = trace w.
Proof. reflexivity. Qed.

Lemma kflags_list_append l pkt w : kflags (list_append l pkt w) = kflags w.
Proof. reflexivity. Qed.

(** Sockets built by [__init__] all resolve [received_frames] to the
    list of the class. *)
Lemma received_frames_loc_class self :
  own_received_frames self = None ->
  received_frames_loc self = class_received_frames.
Proof. unfold received_frames_loc. intros ->. reflexivity. Qed.

End Queue.

(** ** Decoding a buffer of well-formed frames *)

Section WellFormed.

Context {Packet : Type} `{!Scapy Packet}.
Variable plat : Platform.
Variable conf : Conf.
Implicit Types (w : World (Packet := Packet)) (self : Sock) (c : bytes).

(** The header fields [(bh_caplen, bh_datalen, bh_hdrlen)] at the start
    of a frame, zero where they cannot be read. *)
Definition fields c : Z * Z * Z := default (0, 0, 0) (bpf_header plat c).
Definition caplen_of c : Z := (fields c).1.1.
Definition hdrlen_of c : Z := (fields c).2.

(** The bytes between the end of the header and the captured length. *)
Definition captured c : bytes :=
  py_slice c (hdrlen_of c) (hdrlen_of c + caplen_of c).

(** Header offset of the next frame, relative to this one. *)
Definition stride c : Z := bpf_align plat (hdrlen_of c) (caplen_of c).

(** A frame as the device lays it out: a header that holds its three
    fields, a non-zero on-wire length, then the captured bytes, the whole
    padded to the alignment of the platform. *)
Definition well_formed_frame c : Prop :=
  match bpf_header plat c with
  | Some (caplen, datalen, hdrlen) =>
      datalen <> 0 /\ header_end plat <= hdrlen
      /\ Z.of_nat (length c) = bpf_align plat hdrlen caplen
  | None => False
  end.

(** The frame object queued for a payload: the typed object, or the
    opaque bytes when typed construction fails. *)
Definition frame_object self (s : bytes) : Packet :=
  default (Raw s) (dissect (guessed_cls self) s).

(** Offset in the buffer of the header of the [i]-th frame: each header
    sits one stride after the previous one. *)
Fixpoint frame_offset (chunks : list bytes) (i : nat) : Z :=
  match i, chunks with
  | S i, c :: chunks => stride c + frame_offset chunks i
  | _, _ => 0
  end.

Lemma well_formed_frame_inv c :
  well_formed_frame c ->
  exists caplen datalen,
    bpf_header plat c = Some (caplen, datalen, hdrlen_of c)
    /\ caplen = caplen_of c /\ datalen <> 0
    /\ header_end plat <= hdrlen_of c /\ 0 <= caplen_of c
    /\ Z.of_nat (length c) = stride c
    /\ 20 <= stride c
    /\ hdrlen_of c + caplen_of c <= stride c.
Proof.
  unfold well_formed_frame, stride, hdrlen_of, caplen_of, fields.
  destruct (bpf_header plat c) as [[[cl dl] hl] |] eqn:E; [| tauto].
  simpl. intros (Hd & Hh & Hlen).
  destruct (bpf_header_nonneg _ _ _ _ _ E) as (Hc & _ & _).
  exists cl, dl. repeat split; auto.
  - apply bpf_align_header; assumption.
  - apply bpf_align_bounds.
Qed.

Lemma build_frame_object self s :
  debug_dissector conf = false \/ dissect (guessed_cls self) s <> None ->
  build_frame conf self s = Some (frame_object self s).
Proof.
  unfold build_frame, frame_object.
  destruct (dissect (guessed_cls self) s); simpl; [reflexivity |].
  intros [-> | ?]; [reflexivity | congruence].
Qed.

(** One activation on a buffer that starts with a well-formed frame. *)
Lemma extract_frames_head fuel self c rest w :
  well_formed_frame c ->
  debug_dissector conf = false
  \/ dissect (guessed_cls self) (captured c) <> None ->
  extract_frames plat conf (S fuel) self (c ++ rest) w
  = let w1 := list_append (received_frames_loc self)
                (frame_object self (captured c)) w in
    if (20 <=? Z.of_nat (length rest)) then
      let '(o, w2, d) := extract_frames plat conf fuel self rest w1 in
      (o, w2, S d)
    else (Return tt, w1, 1%nat).
Proof.
  intros Hwf Hd.
  destruct (well_formed_frame_inv c Hwf)
    as (cl & dl & Hhdr & -> & Hdl & Hh & Hc & Hlen & H20 & Hsum).
  assert (Hhe : 18 <= header_end plat)
    by (destruct (alignment_cases plat) as [[_ ->] | [_ ->]]; lia).
  cbn [extract_frames].
  rewrite length_app, Nat2Z.inj_add.
  destruct (Z.ltb_spec (Z.of_nat (length c) + Z.of_nat (length rest)) 20);
    [lia |].
  rewrite bpf_header_app_l by lia. rewrite Hhdr.
  destruct (Z.eqb_spec dl 0); [contradiction |].
  rewrite py_slice_app_l by lia.
  fold (captured c). rewrite (build_frame_object _ _ Hd).
  fold (stride c). rewrite <- Hlen.
  replace (Z.of_nat (length c) + Z.of_nat (length rest) - Z.of_nat (length c))
    with (Z.of_nat (length rest)) by lia.
  rewrite py_from_app_length by reflexivity.
  rewrite Z.geb_leb. reflexivity.
Qed.

Lemma py_slice_app_r (a s : bytes) (i j : Z) :
  0 <= i ->
  py_slice (a ++ s) (Z.of_nat (length a) + i) (Z.of_nat (length a) + j)
  = py_slice s i j.
Proof.
  intros Hi. unfold py_slice.
  replace (Z.to_nat (Z.of_nat (length a) + i))
    with (length a + Z.to_nat i)%nat by lia.
  rewrite drop_app_add. f_equal. lia.
Qed.

Lemma frame_offset_length (chunks : list bytes) (i : nat) :
  Forall well_formed_frame chunks ->
  frame_offset chunks i = Z.of_nat (length (concat (take i chunks))).
Proof.
  intros Hwf. revert i.
  induction Hwf as [| c chunks Hc _ IH]; intros [| i]; simpl; try reflexivity.
  destruct (well_formed_frame_inv c Hc)
    as (_ & _ & _ & _ & _ & _ & _ & Hlen & _).
  rewrite length_app, Nat2Z.inj_add, IH. lia.
Qed.

Lemma frame_offset_succ (chunks : list bytes) (i : nat) c :
  chunks !! i = Some c ->
  frame_offset chunks (S i) = frame_offset chunks i + stride c.
Proof.
  revert i. induction chunks as [| c0 chunks IH]; intros [| i] Hi;
    simpl in *; try discriminate.
  - injection Hi as ->. destruct chunks; simpl; lia.
  - rewrite (IH i Hi). destruct i; simpl; lia.
Qed.

(** C1. A buffer made of N well-formed frames back to back decodes, on
    either platform, to exactly N queued frames in arrival order (the
    call returns after one activation per frame); the i-th frame is built
    from [buffer[off_i + hdrlen_i : off_i + hdrlen_i + caplen_i]] where
    [off_i] is the offset of its header, and the next header sits at
    [off_i + ((hdrlen_i + caplen_i) + (a - 1)) & ~(a - 1)] with [a = 8] on
    FreeBSD and NetBSD and [a = 4] otherwise. A well-formed payload is
    one the decoder accepts: outside debug-dissection mode every payload
    is. *)
Theorem extract_frames_well_formed fuel self (chunks : list bytes) w :
  Forall well_formed_frame chunks ->
  debug_dissector conf = false
  \/ Forall (fun c => dissect (guessed_cls self) (captured c) <> None) chunks ->
  (Nat.max 1 (length chunks) <= fuel)%nat ->
  exists w',
    extract_frames plat conf fuel self (concat chunks) w
    = (Return tt, w', Nat.max 1 (length chunks))
    /\ received_frames self w'
       = received_frames self w
         ++ map (fun c => frame_object self (captured c)) chunks
    /\ forall i c, chunks !! i = Some c ->
         let off := frame_offset chunks i in
         let a := if FREEBSD plat || NETBSD plat then 8 else 4 in
         py_slice (concat chunks) off (off + Z.of_nat (length c)) = c
         /\ captured c
            = py_slice (concat chunks) (off + hdrlen_of c)
                (off + hdrlen_of c + caplen_of c)
         /\ frame_offset chunks (S i)
            = off + Z.land (hdrlen_of c + caplen_of c + (a - 1))
                      (Z.lnot (a - 1)).
Proof.
  intros Hwf Hdis Hfuel.
  assert (Hrun : exists w',
    extract_frames plat conf fuel self (concat chunks) w
    = (Return tt, w', Nat.max 1 (length chunks))
    /\ received_frames self w'
       = received_frames self w
         ++ map (fun c => frame_object self (captured c)) chunks).
  { revert fuel w Hdis Hfuel.
    induction Hwf as [| c chunks Hc Hcs IH]; intros fuel w Hdis Hfuel.
    - destruct fuel as [| fuel]; [simpl in Hfuel; lia |].
      exists w. simpl. rewrite app_nil_r. auto.
    - destruct fuel as [| fuel]; [simpl in Hfuel; lia |].
      simpl concat. rewrite extract_frames_head; [| assumption |].
      2: { destruct Hdis as [? | Hall]; [left; assumption | right].
           inversion Hall; assumption. }
      cbv zeta. set (w1 := list_append _ _ w).
      assert (Hq : received_frames self w1
                   = received_frames self w
                     ++ [frame_object self (captured c)])
        by (apply received_frames_append; reflexivity).
      destruct chunks as [| c' chunks'].
      + simpl. exists w1. split; [reflexivity | exact Hq].
      + assert (H20 : 20 <= Z.of_nat (length (concat (c' :: chunks')))).
        { inversion Hcs as [| ? ? Hc' _]; subst.
          destruct (well_formed_frame_inv c' Hc')
            as (_ & _ & _ & _ & _ & _ & _ & Hlen & Hs & _).
          simpl. rewrite length_app. lia. }
        destruct (Z.leb_spec 20 (Z.of_nat (length (concat (c' :: chunks')))));
          [| lia].
        destruct (IH fuel w1) as (w' & Hrun & Hq').
        { destruct Hdis as [? | Hall]; [left; assumption | right].
          inversion Hall; assumption. }
        { simpl in *. lia. }
        exists w'. rewrite Hrun. split.
        * simpl. reflexivity.
        * rewrite Hq', Hq, <- app_assoc. reflexivity. }
  destruct Hrun as (w' & Hrun & Hq). exists w'.
  split; [exact Hrun |]. split; [exact Hq |].
  intros i c Hi off a.
  assert (Hc : well_formed_frame c).
  { eapply Forall_lookup_1; eassumption. }
  destruct (well_formed_frame_inv c Hc)
    as (_ & _ & _ & _ & _ & Hh & Hcl & Hlen & _ & Hsum).
  assert (Hhe : 18 <= header_end plat)
    by (destruct (alignment_cases plat) as [[_ ->] | [_ ->]]; lia).
  assert (Hoff : off = Z.of_nat (length (concat (take i chunks))))
    by (apply frame_offset_length; assumption).
  pose proof (take_drop_middle chunks i c Hi) as Hsplit.
  assert (Hcat : concat chunks
                 = concat (take i chunks) ++ c ++ concat (drop (S i) chunks)).
  { rewrite <- Hsplit at 1. rewrite concat_app. reflexivity. }
  repeat split.
  - rewrite Hcat, Hoff.
    replace (Z.of_nat (length (concat (take i chunks))))
      with (Z.of_nat (length (concat (take i chunks))) + 0) at 1 by lia.
    rewrite py_slice_app_r by lia.
    rewrite py_slice_app_l by lia.
    unfold py_slice. rewrite Z.sub_0_r, Nat2Z.id. simpl.
    apply firstn_all.
  - rewrite Hcat, Hoff.
    rewrite <- Z.add_assoc. rewrite py_slice_app_r by lia.
    rewrite py_slice_app_l by lia. reflexivity.
  - rewrite (frame_offset_succ chunks i c Hi). reflexivity.
Qed.

End WellFormed.

(** ** Termination and depth of the decoder *)

Section Termination.

Context {Packet : Type} `{!Scapy Packet}.
Variable plat : Platform.
Variable conf : Conf.
Implicit Types (w : World (Packet := Packet)) (self : Sock) (b : bytes).

(** An activation that gets past the header checks queues one frame and
    then looks at what remains after the aligned end of the frame. *)
Lemma extract_frames_step fuel self b w caplen datalen hdrlen pkt :
  20 <= Z.of_nat (length b) ->
  bpf_header plat b = Some (caplen, datalen, hdrlen) ->
  datalen <> 0 ->
  build_frame conf self (py_slice b hdrlen (hdrlen + caplen)) = Some pkt ->
  extract_frames plat conf (S fuel) self b w
  = if Z.of_nat (length b) - bpf_align plat hdrlen caplen >=? 20 then
      let '(o, w2, d) :=
        extract_frames plat conf fuel self
          (py_from b (bpf_align plat hdrlen caplen))
          (list_append (received_frames_loc self) pkt w) in
      (o, w2, S d)
    else (Return tt, list_append (received_frames_loc self) pkt w, 1%nat).
Proof.
  intros Hlen Hhdr Hdl Hpkt. cbn [extract_frames].
  destruct (Z.ltb_spec (Z.of_nat (length b)) 20); [lia |].
  rewrite Hhdr. destruct (Z.eqb_spec datalen 0); [contradiction |].
  rewrite Hpkt. reflexivity.
Qed.

(** [recurses_on self b b']: the activation of [extract_frames] on [b]
    reaches its recursive call, and makes it on [b']. *)
Definition recurses_on self b b' : Prop :=
  exists caplen datalen hdrlen,
    20 <= Z.of_nat (length b)
    /\ bpf_header plat b = Some (caplen, datalen, hdrlen)
    /\ datalen <> 0
    /\ build_frame conf self (py_slice b hdrlen (hdrlen + caplen)) <> None
    /\ 20 <= Z.of_nat (length b) - bpf_align plat hdrlen caplen
    /\ b' = py_from b (bpf_align plat hdrlen caplen).

(** Every header that the decoder reaches from [buf] and goes on to
    decode moves the decoder forward by at least one header size. *)
Definition strides_ok self (buf : bytes) : Prop :=
  forall b caplen datalen hdrlen,
    rtc (recurses_on self) buf b ->
    20 <= Z.of_nat (length b) ->
    bpf_header plat b = Some (caplen, datalen, hdrlen) ->
    datalen <> 0 ->
    20 <= bpf_align plat hdrlen caplen.

Lemma strides_ok_next self b b' :
  strides_ok self b -> recurses_on self b b' -> strides_ok self b'.
Proof.
  intros Hok Hstep x cl dl hl Hrtc. apply Hok.
  eapply rtc_l; eassumption.
Qed.

Lemma extract_frames_bounded fuel self b w :
  strides_ok self b ->
  (Z.to_nat (Z.of_nat (length b) / 20) < fuel)%nat ->
  exists o w' d added,
    extract_frames plat conf fuel self b w = (o, w', d)
    /\ o <> Diverge
    /\ received_frames self w' = received_frames self w ++ added
    /\ (length added <= d <= length added + 1)%nat
    /\ (20 <= Z.of_nat (length b) ->
        (d <= Z.to_nat (Z.of_nat (length b) / 20))%nat)
    /\ (Z.of_nat (length b) < 20 -> d = 1%nat /\ added = []).
Proof.
  revert b w. induction fuel as [| fuel IH]; intros b w Hok Hfuel; [lia |].
  cbn [extract_frames].
  destruct (Z.ltb_spec (Z.of_nat (length b)) 20) as [Hshort | Hlong].
  { exists (Return tt), w, 1%nat, []. rewrite app_nil_r.
    repeat split; simpl; try lia. discriminate. }
  assert (H1 : (1 <= Z.to_nat (Z.of_nat (length b) / 20))%nat).
  { assert (1 <= Z.of_nat (length b) / 20)
      by (Z.div_mod_to_equations; lia).
    lia. }
  destruct (bpf_header plat b) as [[[cl dl] hl] |] eqn:Hhdr.
  2: { exists (Raise StructError), w, 1%nat, []. rewrite app_nil_r.
       repeat split; simpl; try lia. discriminate. }
  destruct (Z.eqb_spec dl 0) as [Hz | Hnz].
  { exists (Return tt), w, 1%nat, []. rewrite app_nil_r.
    repeat split; simpl; try lia. discriminate. }
  destruct (build_frame conf self (py_slice b hl (hl + cl))) as [pkt |] eqn:Hpkt.
  2: { exists (Raise DissectError), w, 1%nat, []. rewrite app_nil_r.
       repeat split; simpl; try lia. discriminate. }
  set (w1 := list_append (received_frames_loc self) pkt w).
  assert (Hq : received_frames self w1 = received_frames self w ++ [pkt])
    by (apply received_frames_append; reflexivity).
  assert (Hstride : 20 <= bpf_align plat hl cl).
  { apply (Hok b cl dl hl); auto. apply rtc_refl. }
  rewrite Z.geb_leb.
  destruct (Z.leb_spec 20 (Z.of_nat (length b) - bpf_align plat hl cl))
    as [Hmore | Hlast].
  2: { exists (Return tt), w1, 1%nat, [pkt].
       repeat split; simpl; try lia; [discriminate | exact Hq]. }
  set (b' := py_from b (bpf_align plat hl cl)).
  assert (Hrec : recurses_on self b b').
  { exists cl, dl, hl. repeat split; auto. congruence. }
  assert (Hlen' : Z.of_nat (length b')
                  = Z.of_nat (length b) - bpf_align plat hl cl).
  { unfold b', py_from. rewrite length_drop. lia. }
  assert (Hdiv : 0 <= Z.of_nat (length b') / 20 < Z.of_nat (length b) / 20)
    by (Z.div_mod_to_equations; lia).
  destruct (IH b' w1 (strides_ok_next _ _ _ Hok Hrec))
    as (o & w' & d & added & Hrun & Ho & Hq' & Hd & Hbound & _); [lia |].
  exists o, w', (S d), (pkt :: added). rewrite Hrun.
  repeat split; simpl; try lia; [assumption |].
  rewrite Hq', Hq, <- app_assoc. reflexivity.
Qed.

(** Buffers of well-formed frames are among those whose headers all
    move the decoder forward. *)
Lemma reached_well_formed self (chunks : list bytes) b :
  Forall (well_formed_frame plat) chunks ->
  rtc (recurses_on self) (concat chunks) b ->
  exists i, b = concat (drop i chunks).
Proof.
  intros Hwf. revert b.
  apply (rtc_ind_r (fun b => exists i, b = concat (drop i chunks))).
  - exists 0%nat. reflexivity.
  - intros b b' _ Hstep (i & ->).
    destruct Hstep as (cl & dl & hl & Hlen & Hhdr & _ & _ & _ & ->).
    destruct (drop i chunks) as [| c cs] eqn:Hdrop; [simpl in Hlen; lia |].
    assert (Hc : well_formed_frame plat c).
    { apply (Forall_drop _ i) in Hwf. rewrite Hdrop in Hwf.
      inversion Hwf; assumption. }
    destruct (well_formed_frame_inv plat c Hc)
      as (cl' & dl' & Hhdr' & -> & _ & Hh & Hcl & Hlenc & _ & Hsum).
    assert (Hhe : 18 <= header_end plat)
      by (destruct (alignment_cases plat) as [[_ ->] | [_ ->]]; lia).
    simpl in Hhdr. rewrite bpf_header_app_l in Hhdr by lia.
    rewrite Hhdr' in Hhdr. injection Hhdr as <- <- <-.
    exists (S i). simpl concat.
    rewrite py_from_app_length by (symmetry; exact Hlenc).
    replace (drop (S i) chunks) with (drop 1 (drop i chunks))
      by (rewrite drop_drop; f_equal; lia).
    rewrite Hdrop. reflexivity.
Qed.

Lemma strides_ok_well_formed self (chunks : list bytes) :
  Forall (well_formed_frame plat) chunks ->
  strides_ok self (concat chunks).
Proof.
  intros Hwf b cl dl hl Hrtc Hlen Hhdr Hdl.
  destruct (reached_well_formed self chunks b Hwf Hrtc) as (i & ->).
  destruct (drop i chunks) as [| c cs] eqn:Hdrop; [simpl in Hlen; lia |].
  assert (Hc : well_formed_frame plat c).
  { apply (Forall_drop _ i) in Hwf. rewrite Hdrop in Hwf.
    inversion Hwf; assumption. }
  destruct (well_formed_frame_inv plat c Hc)
    as (cl' & dl' & Hhdr' & -> & _ & Hh & Hcl & Hlenc & H20 & Hsum).
  assert (Hhe : 18 <= header_end plat)
    by (destruct (alignment_cases plat) as [[_ ->] | [_ ->]]; lia).
  simpl in Hhdr. rewrite bpf_header_app_l in Hhdr by lia.
  rewrite Hhdr' in Hhdr. injection Hhdr as <- <- <-. exact H20.
Qed.

(** C5 (as amended). On every buffer in which each header that the
    decoder reaches and decodes has an aligned end of at least 20 bytes,
    [extract_frames] terminates (it returns or raises) once it has more
    fuel than [len / 20]; the frames it queues number at most
    [floor(len / 20)], and the number of activations is the number of
    queued frames or one more, never above [max 1 (floor(len / 20))]. *)
Theorem extract_frames_terminates fuel self (buf : bytes) w :
  strides_ok self buf ->
  (Z.to_nat (Z.of_nat (length buf) / 20) < fuel)%nat ->
  exists o w' d added,
    extract_frames plat conf fuel self buf w = (o, w', d)
    /\ o <> Diverge
    /\ received_frames self w' = received_frames self w ++ added
    /\ (length added <= d <= length added + 1)%nat
    /\ Z.of_nat (length added) <= Z.of_nat (length buf) / 20
    /\ (d <= Nat.max 1 (Z.to_nat (Z.of_nat (length buf) / 20)))%nat.
Proof.
  intros Hok Hfuel.
  destruct (extract_frames_bounded fuel self buf w Hok Hfuel)
    as (o & w' & d & added & Hrun & Ho & Hq & Hd & Hlong & Hshort).
  exists o, w', d, added. repeat split; try assumption; try lia.
  destruct (Z.lt_ge_cases (Z.of_nat (length buf)) 20) as [Hlt | Hge].
  - destruct (Hshort Hlt) as [_ ->]. simpl. Z.div_mod_to_equations; lia.
  - specialize (Hlong Hge).
    assert (0 <= Z.of_nat (length buf) / 20)
      by (Z.div_mod_to_equations; lia).
    lia.
Qed.

End Termination.

(** ** Early stops and decode failures *)

Section Decoder.

Context {Packet : Type} `{!Scapy Packet}.
Variable plat : Platform.
Variable conf : Conf.
Implicit Types (w : World (Packet := Packet)) (self : Sock) (b : bytes).

Lemma extract_frames_short fuel self b w :
  Z.of_nat (length b) < 20 ->
  extract_frames plat conf (S fuel) self b w = (Return tt, w, 1%nat).
Proof.
  intros Hlen. cbn [extract_frames].
  destruct (Z.ltb_spec (Z.of_nat (length b)) 20); [reflexivity | lia].
Qed.

Lemma extract_frames_zero_datalen fuel self b w caplen hdrlen :
  bpf_header plat b = Some (caplen, 0, hdrlen) ->
  extract_frames plat conf (S fuel) self b w = (Return tt, w, 1%nat).
Proof.
  intros Hhdr. cbn [extract_frames].
  destruct (Z.of_nat (length b) <? 20); [reflexivity |].
  rewrite Hhdr. reflexivity.
Qed.

Lemma length_py_slice b (i j : Z) :
  0 <= i <= j ->
  Z.of_nat (length (py_slice b i j))
  = Z.min (j - i) (Z.max 0 (Z.of_nat (length b) - i)).
Proof.
  intros Hij. unfold py_slice. rewrite length_take, length_drop. lia.
Qed.

(** With the narrow timestamp the three fields end at byte 18, so the
    20-byte guard makes every unpack succeed. *)
Lemma bpf_header_narrow b :
  FREEBSD plat || NETBSD plat = false ->
  18 <= Z.of_nat (length b) ->
  is_Some (bpf_header plat b).
Proof.
  intros Hn Hlen. unfold bpf_header, unpack_I, unpack_H, struct_unpack.
  rewrite Hn.
  repeat (case_decide;
          [| exfalso;
             match goal with Hl : length _ <> _ |- _ => apply Hl end;
             apply Nat2Z.inj; rewrite length_py_slice by lia; lia]).
  eexists. reflexivity.
Qed.

(** With the wide timestamp they end at byte 26: a buffer that passes
    the 20-byte guard with fewer bytes makes an unpack raise. *)
Lemma bpf_header_wide_short b :
  FREEBSD plat || NETBSD plat = true ->
  Z.of_nat (length b) < 26 ->
  bpf_header plat b = None.
Proof.
  intros Hw Hlen. unfold bpf_header, unpack_I, unpack_H, struct_unpack.
  rewrite Hw.
  repeat (case_decide; [| reflexivity]).
  match goal with
  | Hl : length (py_slice b _ (_ + 2)) = _ |- _ =>
      apply (f_equal Z.of_nat) in Hl;
      rewrite length_py_slice in Hl by lia; lia
  end.
Qed.

(** What every run of the decoder does to the world: it only appends to
    the queue of [self]; and outside debug-dissection mode it never
    raises the exception of the packet constructor. *)
Lemma extract_frames_effect fuel self b w :
  exists added,
    received_frames self (extract_frames plat conf fuel self b w).1.2
    = received_frames self w ++ added
    /\ trace (extract_frames plat conf fuel self b w).1.2 = trace w
    /\ kflags (extract_frames plat conf fuel self b w).1.2 = kflags w
    /\ (debug_dissector conf = false ->
        (extract_frames plat conf fuel self b w).1.1 <> Raise DissectError).
Proof.
  revert b w. induction fuel as [| fuel IH]; intros b w.
  { exists []. simpl. rewrite app_nil_r. repeat split. discriminate. }
  cbn [extract_frames].
  destruct (Z.of_nat (length b) <? 20).
  { exists []. simpl. rewrite app_nil_r. repeat split. discriminate. }
  destruct (bpf_header plat b) as [[[cl dl] hl] |].
  2: { exists []. simpl. rewrite app_nil_r. repeat split. discriminate. }
  destruct (dl =? 0).
  { exists []. simpl. rewrite app_nil_r. repeat split. discriminate. }
  destruct (build_frame conf self (py_slice b hl (hl + cl))) as [pkt |] eqn:Hpkt.
  2: { exists []. simpl. rewrite app_nil_r. repeat split.
       intros Hdbg. unfold build_frame in Hpkt. rewrite Hdbg in Hpkt.
       destruct (dissect _ _); discriminate. }
  set (w1 := list_append (received_frames_loc self) pkt w).
  assert (Hq : received_frames self w1 = received_frames self w ++ [pkt])
    by (apply received_frames_append; reflexivity).
  destruct (Z.of_nat (length b) - bpf_align plat hl cl >=? 20).
  2: { exists [pkt]. simpl. repeat split; [exact Hq | discriminate]. }
  destruct (IH (py_from b (bpf_align plat hl cl)) w1)
    as (added & Hq' & Ht & Hk & Hd).
  destruct (extract_frames plat conf fuel self _ w1) as [[o w2] d].
  simpl in *. exists (pkt :: added). repeat split; auto.
  rewrite Hq', Hq, <- app_assoc. reflexivity.
Qed.

(** C7. When typed construction fails on the payload of a frame, the
    decoder queues the opaque-bytes frame [Raw] in its place and the
    exception of the constructor does not reach the caller (neither from
    this frame nor from a later one); in debug-dissection mode the
    exception propagates instead, and nothing is queued for the frame. *)
Theorem decode_failure_fallback fuel self b w caplen datalen hdrlen :
  20 <= Z.of_nat (length b) ->
  bpf_header plat b = Some (caplen, datalen, hdrlen) ->
  datalen <> 0 ->
  dissect (guessed_cls self) (py_slice b hdrlen (hdrlen + caplen)) = None ->
  (debug_dissector conf = false ->
   exists o w' d rest,
     extract_frames plat conf (S fuel) self b w = (o, w', d)
     /\ o <> Raise DissectError
     /\ received_frames self w'
        = received_frames self w
          ++ Raw (py_slice b hdrlen (hdrlen + caplen)) :: rest)
  /\ (debug_dissector conf = true ->
      extract_frames plat conf (S fuel) self b w
      = (Raise DissectError, w, 1%nat)).
Proof.
  intros Hlen Hhdr Hdl Hfail. split; intros Hdbg.
  - assert (Hpkt : build_frame conf self (py_slice b hdrlen (hdrlen + caplen))
                   = Some (Raw (py_slice b hdrlen (hdrlen + caplen))))
      by (unfold build_frame; rewrite Hfail, Hdbg; reflexivity).
    destruct (extract_frames_effect (S fuel) self b w)
      as (added & _ & _ & _ & Hno).
    specialize (Hno Hdbg).
    rewrite (extract_frames_step plat conf fuel self b w _ _ _ _
               Hlen Hhdr Hdl Hpkt) in *.
    set (w1 := list_append _ _ w) in *.
    assert (Hq : received_frames self w1
                 = received_frames self w
                   ++ [Raw (py_slice b hdrlen (hdrlen + caplen))])
      by (apply received_frames_append; reflexivity).
    destruct (Z.of_nat (length b) - bpf_align plat hdrlen caplen >=? 20).
    + destruct (extract_frames_effect fuel self
                  (py_from b (bpf_align plat hdrlen caplen)) w1)
        as (rest & Hq' & _).
      destruct (extract_frames plat conf fuel self _ w1) as [[o w2] d].
      simpl in *. exists o, w2, (S d), rest. repeat split; auto.
      rewrite Hq', Hq, <- app_assoc. reflexivity.
    + exists (Return tt), w1, 1%nat, []. repeat split; auto.
  - cbn [extract_frames].
    destruct (Z.ltb_spec (Z.of_nat (length b)) 20); [lia |].
    rewrite Hhdr. destruct (Z.eqb_spec datalen 0); [contradiction |].
    unfold build_frame. rewrite Hfail, Hdbg. reflexivity.
Qed.

End Decoder.

(** ** The receive paths *)

Section Receive.

Context {Packet : Type} `{!Scapy Packet}.
Variable plat : Platform.
Variable conf : Conf.
Variable K : Kernel.
Implicit Types (w : World (Packet := Packet)) (self : Sock) (pkt : Packet).

(** What [get_frame] hands out for a queued frame. *)
Definition delivered self pkt : Packet :=
  match sock_class self with
  | L3bpfSocket => payload pkt
  | L2bpfListenSocket | L2bpfSocket => pkt
  end.

Lemma get_frame_cons self w pkt rest :
  received_frames self w = pkt :: rest ->
  get_frame self w
  = (Some (delivered self pkt), list_store (received_frames_loc self) rest w).
Proof.
  intros Hq. unfold get_frame, delivered, isinstance. rewrite Hq.
  destruct (sock_class self); reflexivity.
Qed.

Lemma get_frame_nil self w :
  received_frames self w = [] -> get_frame self w = (None, w).
Proof. intros Hq. unfold get_frame. rewrite Hq. reflexivity. Qed.

Lemma get_frame_head self w :
  (get_frame self w).1 = delivered self <$> head (received_frames self w)
  /\ received_frames self (get_frame self w).2 = tail (received_frames self w)
  /\ trace (get_frame self w).2 = trace w
  /\ kflags (get_frame self w).2 = kflags w.
Proof.
  destruct (received_frames self w) as [| pkt rest] eqn:Hq.
  - rewrite get_frame_nil by assumption. simpl. auto.
  - rewrite (get_frame_cons _ _ _ _ Hq). simpl.
    rewrite received_frames_store by reflexivity. auto.
Qed.

Lemma truthy_buffered_frames self w :
  truthy (buffered_frames self w)
  = match received_frames self w with [] => false | _ :: _ => true end.
Proof.
  unfold truthy, buffered_frames.
  destruct (received_frames self w); reflexivity.
Qed.

(** A read that fails, whatever the errno, makes [recv] return [None]
    after that one call. *)
Lemma recv_read_fails fuel self x w e :
  received_frames self w = [] ->
  k_errno K (trace w) (SysRead (ins self) x) = Some e ->
  exists w',
    recv plat conf K fuel self x w = (Return None, w')
    /\ received_frames self w' = []
    /\ trace w'
       = trace w ++ Call (SysRead (ins self) x)
           :: (if e =? EAGAIN plat then [] else [Warning "BPF recv()"]).
Proof.
  intros Hq He. unfold recv. rewrite truthy_buffered_frames, Hq.
  unfold os_read. rewrite He.
  destruct (e =? EAGAIN plat); eexists; (split; [reflexivity |]);
    simpl; split; try assumption; try reflexivity.
  rewrite <- app_assoc. reflexivity.
Qed.

(** C10. For every frame popped from the receive queue, a routed socket
    ([L3bpfSocket]) returns the payload of the frame, that is the frame
    without its link-layer header, while the listen and transceiver
    sockets return the frame itself. *)
Theorem get_frame_by_class self w pkt rest :
  received_frames self w = pkt :: rest ->
  exists w',
    received_frames self w' = rest
    /\ (sock_class self = L3bpfSocket ->
        get_frame self w = (Some (payload pkt), w'))
    /\ (sock_class self = L2bpfListenSocket \/ sock_class self = L2bpfSocket ->
        get_frame self w = (Some pkt, w')).
Proof.
  intros Hq. exists (list_store (received_frames_loc self) rest w).
  rewrite (get_frame_cons _ _ _ _ Hq), received_frames_store by reflexivity.
  unfold delivered. split; [reflexivity |].
  split; [intros -> | intros [-> | ->]]; reflexivity.
Qed.

(** C8. [recv] with a non-empty queue pops and returns the front frame
    and makes no call to the device. With an empty queue it makes
    exactly one read: a read that would block or fails yields [None];
    after a successful read the frames decoded from the buffer are on the
    queue in order, and when the decoder returns the front one is popped
    and returned ([None] if there is none). A routed socket hands the
    frame out as [get_frame] does, without its link-layer header. *)
Theorem recv_spec fuel self x w :
  let rd := SysRead (ins self) x in
  (forall pkt rest,
     received_frames self w = pkt :: rest ->
     exists w',
       recv plat conf K fuel self x w = (Return (Some (delivered self pkt)), w')
       /\ received_frames self w' = rest
       /\ trace w' = trace w)
  /\ (forall e,
        received_frames self w = [] ->
        k_errno K (trace w) rd = Some e ->
        exists w',
          recv plat conf K fuel self x w = (Return None, w')
          /\ received_frames self w' = []
          /\ trace w'
             = trace w ++ Call rd
                 :: (if e =? EAGAIN plat then [] else [Warning "BPF recv()"]))
  /\ (received_frames self w = [] ->
      k_errno K (trace w) rd = None ->
      exists o w1 d,
        extract_frames plat conf fuel self (k_read K (trace w) (ins self) x)
          (log (Call rd) w) = (o, w1, d)
        /\ trace w1 = trace w ++ [Call rd]
        /\ match o with
           | Return _ =>
               exists w',
                 recv plat conf K fuel self x w
                 = (Return (delivered self <$> head (received_frames self w1)),
                    w')
                 /\ received_frames self w' = tail (received_frames self w1)
                 /\ trace w' = trace w ++ [Call rd]
           | Raise e => recv plat conf K fuel self x w = (Raise e, w1)
           | Diverge => recv plat conf K fuel self x w = (Diverge, w1)
           end).
Proof.
  intros rd. unfold recv. rewrite truthy_buffered_frames.
  split; [| split].
  - intros pkt rest Hq. rewrite Hq, (get_frame_cons _ _ _ _ Hq).
    eexists. split; [reflexivity |].
    rewrite received_frames_store by reflexivity. auto.
  - intros e Hq He. fold (recv plat conf K fuel self x w).
    rewrite <- truthy_buffered_frames.
    exact (recv_read_fails fuel self x w e Hq He).
  - intros Hq He. rewrite Hq. unfold os_read. fold rd. rewrite He.
    destruct (extract_frames_effect plat conf fuel self
                (k_read K (trace w) (ins self) x) (log (Call rd) w))
      as (added & _ & Ht & _ & _).
    destruct (extract_frames plat conf fuel self _ (log (Call rd) w))
      as [[o w1] d].
    simpl in Ht. exists o, w1, d. split; [reflexivity |].
    split; [exact Ht |].
    destruct o as [[] | e |]; try reflexivity.
    destruct (get_frame_head self w1) as (Hr & Hq' & Ht' & _).
    destruct (get_frame self w1) as [r w'].
    simpl in *. exists w'. rewrite Hr, Hq', Ht', Ht. auto.
Qed.

End Receive.

(** ** The non-blocking receive *)

Lemma land_lor_lnot (f n : Z) :
  Z.land (Z.lor f n) (Z.lnot n) = Z.land f (Z.lnot n).
Proof.
  apply Z.bits_inj'. intros i Hi.
  rewrite !Z.land_spec, Z.lor_spec, Z.lnot_spec by lia.
  destruct (Z.testbit f i), (Z.testbit n i); reflexivity.
Qed.

Lemma land_lnot_fixed (f n : Z) :
  Z.land f (Z.lnot n) = f <-> Z.land f n = 0.
Proof.
  split; intros H.
  - apply Z.bits_inj'. intros i Hi.
    rewrite Z.land_spec, Z.bits_0.
    apply (f_equal (fun z => Z.testbit z i)) in H.
    rewrite Z.land_spec, Z.lnot_spec in H by lia.
    destruct (Z.testbit f i), (Z.testbit n i); simpl in *; congruence.
  - apply Z.bits_inj'. intros i Hi.
    apply (f_equal (fun z => Z.testbit z i)) in H.
    rewrite Z.land_spec, Z.bits_0 in H.
    rewrite Z.land_spec, Z.lnot_spec by lia.
    destruct (Z.testbit f i), (Z.testbit n i); simpl in *; congruence.
Qed.

Section NonBlocking.

Context {Packet : Type} `{!Scapy Packet}.
Variable plat : Platform.
Variable conf : Conf.
Variable K : Kernel.
Implicit Types (w : World (Packet := Packet)) (self : Sock).

(** The flag calls on the descriptor of [self] never fail. *)
Definition flag_calls_succeed self : Prop :=
  (forall t, k_errno K t (SysGetFl (ins self)) = None)
  /\ (forall t f, k_errno K t (SysSetFl (ins self) f) = None).

(** The calls that [set_nonblock] makes when nothing fails. *)
Definition set_nonblock_calls self (new_flags : Z) : list Event :=
  match fd_flags self with
  | None => [Call (SysGetFl (ins self)); Call (SysSetFl (ins self) new_flags)]
  | Some _ => [Call (SysSetFl (ins self) new_flags)]
  end.

Lemma set_nonblock_succeeds self (set_flag : bool) w flags :
  kflags w !! ins self = Some flags ->
  fd_flags self = None \/ fd_flags self = Some flags ->
  flag_calls_succeed self ->
  let new_flags :=
    if set_flag then Z.lor flags (O_NONBLOCK plat)
    else Z.land flags (Z.lnot (O_NONBLOCK plat)) in
  set_nonblock plat K self set_flag w
  = (set_fd_flags (Some new_flags) self,
     {| heap := heap w;
        kflags := <[ins self := new_flags]> (kflags w);
        trace := trace w ++ set_nonblock_calls self new_flags |}).
Proof.
  intros Hk Hcache [Hget Hset] new_flags.
  unfold set_nonblock, set_nonblock_calls.
  destruct Hcache as [-> | ->].
  - unfold fcntl_getfl. rewrite Hget, Hk. fold new_flags.
    unfold fcntl_setfl. simpl. rewrite Hset, Hk.
    unfold log, set_kflags. simpl. rewrite <- app_assoc. reflexivity.
  - fold new_flags. unfold fcntl_setfl. rewrite Hset, Hk. reflexivity.
Qed.

Lemma recv_effect fuel self x w :
  kflags (recv plat conf K fuel self x w).2 = kflags w.
Proof.
  unfold recv. destruct (truthy (buffered_frames self w)).
  - destruct (get_frame_head self w) as (_ & _ & _ & Hk).
    destruct (get_frame self w). exact Hk.
  - unfold os_read. destruct (k_errno K (trace w) _) as [e |].
    + destruct (e =? EAGAIN plat); reflexivity.
    + set (w1 := log _ w).
      destruct (extract_frames_effect plat conf fuel self
                  (k_read K (trace w) (ins self) x) w1)
        as (_ & _ & _ & Hk & _).
      destruct (extract_frames plat conf fuel self _ w1) as [[o w2] d].
      simpl in Hk. destruct o as [[] | e |]; try exact Hk.
      destruct (get_frame_head self w2) as (_ & _ & _ & Hk').
      destruct (get_frame self w2). simpl in *. congruence.
Qed.

(** C3 (as amended). A call to [nonblock_recv] with an empty queue, on a
    descriptor whose flag calls succeed, that returns leaves the
    descriptor with [O_NONBLOCK] cleared from the flags it had before the
    call, and a read that would block or fails makes the call return
    [None]. The flags after the call are those before the call exactly
    when the descriptor was blocking before the call. *)
Theorem nonblock_recv_clears_flag fuel self w flags :
  received_frames self w = [] ->
  kflags w !! ins self = Some flags ->
  fd_flags self = None \/ fd_flags self = Some flags ->
  flag_calls_succeed self ->
  let cleared := Z.land flags (Z.lnot (O_NONBLOCK plat)) in
  let at_read :=
    trace w ++ set_nonblock_calls self (Z.lor flags (O_NONBLOCK plat)) in
  exists o self' w',
    nonblock_recv plat conf K fuel self w = (o, self', w')
    /\ (forall e,
          k_errno K at_read (SysRead (ins self) (BPF_BUFFER_LENGTH plat))
          = Some e ->
          o = Return None)
    /\ (forall r, o = Return r ->
        kflags w' !! ins self = Some cleared
        /\ fd_flags self' = Some cleared
        /\ (kflags w' !! ins self = kflags w !! ins self
            <-> Z.land flags (O_NONBLOCK plat) = 0)).
Proof.
  intros Hq Hk Hcache Hok cleared at_read.
  unfold nonblock_recv. rewrite truthy_buffered_frames, Hq.
  rewrite (set_nonblock_succeeds self true w flags Hk Hcache Hok).
  set (self1 := set_fd_flags _ self).
  set (w1 := {| heap := heap w |}).
  assert (Hq1 : received_frames self1 w1 = []) by exact Hq.
  pose proof (recv_effect fuel self1 (BPF_BUFFER_LENGTH plat) w1) as Hk2.
  pose proof (fun e => recv_read_fails plat conf K fuel self1
                         (BPF_BUFFER_LENGTH plat) w1 e Hq1) as Hfail.
  destruct (recv plat conf K fuel self1 (BPF_BUFFER_LENGTH plat) w1)
    as [o w2] eqn:Hrecv.
  simpl in Hk2.
  assert (Hk1 : kflags w2 !! ins self1
                = Some (Z.lor flags (O_NONBLOCK plat))).
  { rewrite Hk2. simpl. apply lookup_insert_eq. }
  destruct o as [r | e |].
  - rewrite (set_nonblock_succeeds self1 false w2 _ Hk1); [| right |];
      [| reflexivity | exact Hok].
    rewrite land_lor_lnot. fold cleared.
    eexists _, _, _. split; [reflexivity |]. split.
    + intros e He. destruct (Hfail e He) as (w' & Heq & _).
      congruence.
    + intros r' _. simpl. rewrite lookup_insert_eq.
      repeat split; try reflexivity.
      * rewrite Hk. intros [= Heq]. apply land_lnot_fixed. exact Heq.
      * rewrite Hk. intros Hz. f_equal. apply land_lnot_fixed. exact Hz.
  - eexists _, _, _. split; [reflexivity |]. split.
    + intros e' He. destruct (Hfail e' He) as (w' & Heq & _).
      congruence.
    + intros r' [=].
  - eexists _, _, _. split; [reflexivity |]. split.
    + intros e' He. destruct (Hfail e' He) as (w' & Heq & _).
      congruence.
    + intros r' [=].
Qed.

End NonBlocking.

(** ** The multiplexer *)

Section Multiplexer.

Context {Packet : Type} `{!Scapy Packet}.
Variable K : Kernel.
Implicit Types (w : World (Packet := Packet)) (d : Desc).

(** A BPF socket with buffered frames. *)
Definition has_buffered w d : bool := isBPFSocket d && desc_buffered d w.

Lemma select_turns w (fds : list Desc) (buffered waited : list Desc) :
  fold_left (select_turn w) fds (buffered, waited)
  = (buffered ++ List.filter (has_buffered w) fds,
     waited ++ List.filter (fun d => negb (has_buffered w d)) fds).
Proof.
  revert buffered waited.
  induction fds as [| d fds IH]; intros buffered waited; simpl.
  - rewrite !app_nil_r. reflexivity.
  - change (isBPFSocket d && desc_buffered d w) with (has_buffered w d).
    destruct (has_buffered w d); simpl;
      rewrite IH, <- app_assoc; reflexivity.
Qed.

(** C9. [bpf_select] puts every BPF socket with buffered frames in the
    result without handing it to [select], which is not called at all
    when every descriptor is such a socket; the other descriptors go to
    one [select] call with the given timeout, 0.05 when there is none;
    the result is the buffered sockets followed by what [select]
    reports ready. *)
Theorem bpf_select_spec (fds_list : list Desc) (timeout : option Q) w :
  let buffered := List.filter (has_buffered w) fds_list in
  let waited := List.filter (fun d => negb (has_buffered w d)) fds_list in
  let t := match timeout with Some t => t | None => 5 # 100 end in
  exists o w',
    bpf_select K fds_list timeout w = (o, w')
    /\ (waited = [] -> o = Return buffered /\ w' = w)
    /\ (waited <> [] ->
        trace w' = trace w ++ [Call (SysSelect waited t)]
        /\ heap w' = heap w
        /\ (k_errno K (trace w) (SysSelect waited t) = None ->
            o = Return (buffered ++ k_select K (trace w) waited t))).
Proof.
  intros buffered waited t. unfold bpf_select.
  rewrite select_turns. simpl. fold buffered waited.
  replace (default default_timeout timeout) with t
    by (destruct timeout; reflexivity).
  destruct waited as [| d rest] eqn:Hw.
  - simpl. eexists _, _. split; [reflexivity |].
    split; [auto | intros []; reflexivity].
  - unfold truthy, py_select. simpl length.
    destruct (k_errno K (trace w) (SysSelect (d :: rest) t)) as [e |];
      simpl; eexists _, _; (split; [reflexivity |]);
      (split; [discriminate |]); intros _; repeat split; discriminate.
Qed.

End Multiplexer.

(** ** The routed send *)

Section Routed.

Context {Packet : Type} `{!Scapy Packet}.
Variable conf : Conf.
Variable K : Kernel.
Implicit Types (w : World (Packet := Packet)) (self : Sock) (pkt : Packet).

(** The interface chosen for each class of packet. The lookup in the
    IPv6 table is overwritten by the [else] branch of the test for
    [IP]. *)
Lemma send_iff_cases pkt :
  send_iff conf pkt
  = if is_IP pkt then (route conf (dst pkt)).1.1 else conf_iface conf.
Proof. unfold send_iff. destruct (is_IP pkt); reflexivity. Qed.

(** [L3bpfSocket.send] binds the descriptor again exactly when the
    chosen interface is not the one bound. *)
Lemma l3_send_rebinds self pkt w :
  let iff_ := send_iff conf pkt in
  let frame := str (encap (guessed_cls self) pkt) in
  exists o self' w',
    l3_send conf K self pkt w = (o, self', w')
    /\ (assigned_interface self = iff_ ->
        self' = self
        /\ trace w' = trace w ++ [Call (SysWrite (ins self) frame)])
    /\ (assigned_interface self <> iff_ ->
        k_errno K (trace w) (SysBIOCSETIF (ins self) iff_) = None ->
        assigned_interface self' = iff_
        /\ trace w'
           = trace w ++ [Call (SysBIOCSETIF (ins self) iff_);
                         Call (SysWrite (ins self) frame)]).
Proof.
  intros iff_ frame. unfold l3_send. fold iff_.
  case_bool_decide as Hne.
  - unfold ioctl_BIOCSETIF.
    destruct (k_errno K (trace w) (SysBIOCSETIF (ins self) iff_)) as [e |].
    + eexists _, _, _. split; [reflexivity |].
      split; [intros Heq; contradiction | intros _ [=]].
    + unfold send. simpl. fold frame.
      destruct (k_errno K _ (SysWrite (ins self) frame));
        eexists _, _, _; (split; [reflexivity |]);
        (split; [intros Heq; contradiction |]); intros _ _; simpl;
        rewrite <- app_assoc; auto.
  - unfold send. fold frame.
    destruct (k_errno K _ (SysWrite (ins self) frame));
      eexists _, _, _; (split; [reflexivity |]);
      (split; [auto | intros Hd; contradiction]).
Qed.

End Routed.

(** ** Concrete runs *)

Import Toy.

(** A 16-byte Ethernet frame, a 3-byte runt that the Ethernet
    constructor rejects, and the buffer that holds one after the other
    on the narrow platform. *)
Definition ether16 : bytes := zeros 14 ++ [x61; x62].
Definition runt3 : bytes := [x01; x02; x03].
Definition two_frames : list bytes :=
  [frame narrow 18 16 ether16; frame narrow 18 3 runt3].

Definition listen3 : Sock := socket L2bpfListenSocket 3 "em0".
Definition listen4 : Sock := socket L2bpfListenSocket 4 "em1".
Definition transceiver3 : Sock := socket L2bpfSocket 3 "em0".
Definition routed3 : Sock := socket L3bpfSocket 3 "em0".

Lemma two_frames_well_formed : Forall (well_formed_frame narrow) two_frames.
Proof.
  repeat constructor; vm_compute; intuition discriminate.
Qed.

Lemma extract_frames_well_formed_witness :
  exists w',
    extract_frames narrow (conf false) 2 listen3 (concat two_frames)
      (world 0 0) = (Return tt, w', 2%nat)
    /\ received_frames listen3 w'
       = [frame_object listen3 ether16; Raw runt3].
Proof.
  destruct (extract_frames_well_formed narrow (conf false) 2 listen3
              two_frames (world 0 0)) as (w' & Hrun & Hq & _).
  - exact two_frames_well_formed.
  - left. reflexivity.
  - simpl. lia.
  - exists w'. split; [exact Hrun | exact Hq].
Defined.

(** C2. Two sockets on two descriptors: after the first has read a
    buffer of two frames and returned the first one, the second socket
    reports one buffered frame and its [recv] returns that frame without
    reading its own descriptor. The queue is the list of the class, which
    every socket built by [__init__] shares. *)
Theorem received_frames_shared :
  let K := kernel (concat two_frames) in
  let w0 := world 0 0 in
  let r1 := recv narrow (conf false) K 2 listen3 4096 w0 in
  let r2 := recv narrow (conf false) K 2 listen4 4096 r1.2 in
  listen3 <> listen4
  /\ buffered_frames listen4 w0 = 0
  /\ r1.1 = Return (Some (frame_object listen3 ether16))
  /\ buffered_frames listen4 r1.2 = 1
  /\ r2.1 = Return (Some (Raw runt3))
  /\ trace r2.2 = [Call (SysRead 3 4096)].
Proof. vm_compute. intuition discriminate. Qed.

Lemma received_frames_aliased {Packet : Type} (s1 s2 : Sock)
    (w : World (Packet := Packet)) :
  own_received_frames s1 = None -> own_received_frames s2 = None ->
  received_frames s1 w = received_frames s2 w.
Proof.
  intros H1 H2. unfold received_frames.
  rewrite !received_frames_loc_class by assumption. reflexivity.
Qed.

(** C3, counterexample. A transceiver socket put in non-blocking mode
    with [set_nonblock] is in blocking mode after a [nonblock_recv] whose
    read would block: the flag is cleared, not put back. *)
Lemma nonblock_recv_mode_not_restored :
  let K := kernel_read_fails (EAGAIN narrow) in
  let before := set_nonblock narrow K transceiver3 true (world 0 0) in
  let after := nonblock_recv narrow (conf false) K 1 before.1 before.2 in
  received_frames before.1 before.2 = []
  /\ kflags before.2 !! 3%nat = Some (O_NONBLOCK narrow)
  /\ after.1.1 = Return None
  /\ kflags after.2 !! 3%nat = Some 0
  /\ kflags after.2 !! 3%nat <> kflags before.2 !! 3%nat.
Proof. vm_compute. intuition discriminate. Qed.

Lemma nonblock_recv_clears_flag_witness :
  let K := kernel_read_fails (EAGAIN narrow) in
  exists o self' w',
    nonblock_recv narrow (conf false) K 1 transceiver3 (world 2 0)
    = (o, self', w')
    /\ o = Return None
    /\ kflags w' !! 3%nat = Some 2
    /\ fd_flags self' = Some 2.
Proof.
  intros K.
  destruct (nonblock_recv_clears_flag narrow (conf false) K 1 transceiver3
              (world 2 0) 2)
    as (o & self' & w' & Hrun & Hfail & Hret).
  - reflexivity.
  - reflexivity.
  - left. reflexivity.
  - split; reflexivity.
  - assert (Ho : o = Return None) by (apply (Hfail 35); reflexivity).
    destruct (Hret None Ho) as (Hk & Hc & _).
    exists o, self', w'. repeat split; assumption.
Defined.

(** C4. An IPv6 packet on a routed socket bound to the default
    interface: the IPv6 table names another interface, yet the packet
    leaves on the default interface with no rebind call, because the
    [else] branch of the test for [IP] overwrites the interface found in
    the IPv6 table. *)
Theorem l3_send_ipv6_ignores_route6 :
  let pkt := Layer "IPv6" "2001:db8::2" [x60] NoPayload in
  let sent := l3_send (conf false) (kernel []) routed3 pkt (world 0 0) in
  is_IPv6 pkt = true
  /\ (route6 (conf false) (dst pkt)).1.1 = "em2"%string
  /\ assigned_interface routed3 = "em0"%string
  /\ send_iff (conf false) pkt = "em0"%string
  /\ sent.1.1 = Return tt
  /\ assigned_interface sent.1.2 = "em0"%string
  /\ trace sent.2 = [Call (SysWrite 3 (str (encap Ether pkt)))].
Proof. vm_compute. intuition reflexivity. Qed.

(** A header with a non-zero on-wire length whose header length and
    captured length are both zero. *)
Definition stuck : bytes := zeros 12 ++ le_bytes 4 1 ++ zeros 4.

(** C5, counterexample. On a 20-byte buffer whose header has zero
    header and captured lengths the decoder calls itself on the same
    buffer for ever: whatever the fuel it is still running, having
    queued as many frames as it was given fuel, while [len / 20] is 1. *)
Lemma extract_frames_zero_stride_diverges :
  Z.of_nat (length stuck) / 20 = 1
  /\ forall fuel, exists w',
       extract_frames narrow (conf false) fuel listen3 stuck (world 0 0)
       = (Diverge, w', fuel)
       /\ length (received_frames listen3 w') = fuel.
Proof.
  split; [reflexivity |].
  assert (H : forall fuel w, exists w',
    extract_frames narrow (conf false) fuel listen3 stuck w
    = (Diverge, w', fuel)
    /\ length (received_frames listen3 w')
       = (length (received_frames listen3 w) + fuel)%nat).
  { induction fuel as [| fuel IH]; intros w.
    - exists w. split; [reflexivity | lia].
    - rewrite (extract_frames_step narrow (conf false) fuel listen3 stuck w
                 0 1 0 (Raw [])); [| vm_compute; discriminate | reflexivity
                                   | discriminate | reflexivity].
      change (bpf_align narrow 0 0) with 0.
      change (py_from stuck 0) with stuck.
      change (Z.of_nat (length stuck) - 0 >=? 20) with true. cbv iota.
      destruct (IH (list_append (received_frames_loc listen3) (Raw []) w))
        as (w' & Hrun & Hlen).
      exists w'. rewrite Hrun. split; [reflexivity |].
      rewrite Hlen, received_frames_append by reflexivity.
      rewrite length_app. simpl. lia. }
  intros fuel. destruct (H fuel (world 0 0)) as (w' & Hrun & Hlen).
  exists w'. split; [exact Hrun | exact Hlen].
Qed.

Lemma extract_frames_terminates_witness :
  exists o w' d added,
    extract_frames narrow (conf false) 4 listen3 (concat two_frames)
      (world 0 0) = (o, w', d)
    /\ o <> Diverge
    /\ received_frames listen3 w' = added
    /\ (length added <= d <= length added + 1)%nat
    /\ Z.of_nat (length added) <= 3.
Proof.
  destruct (extract_frames_terminates narrow (conf false) 4 listen3
              (concat two_frames) (world 0 0))
    as (o & w' & d & added & Hrun & Ho & Hq & Hd & Hn & _).
  - apply strides_ok_well_formed. exact two_frames_well_formed.
  - vm_compute. lia.
  - exists o, w', d, added. repeat split; try assumption; lia.
Defined.

(** C6. On the wide-timestamp platform the on-wire length sits at bytes
    20 to 24 and the header length at bytes 24 to 26, past the 20 bytes
    that the guard asks for: a buffer of 20 zero bytes gets through the
    guard and the unpack of the empty slice raises [struct.error]. On
    the narrow platform the same buffer yields no frame and no error. *)
Theorem extract_frames_wide_20_bytes fuel (w : World (Packet := packet)) :
  extract_frames wide (conf false) (S fuel) listen3 (zeros 20) w
  = (Raise StructError, w, 1%nat)
  /\ extract_frames narrow (conf false) (S fuel) listen3 (zeros 20) w
     = (Return tt, w, 1%nat).
Proof. split; reflexivity. Qed.

Lemma decode_failure_fallback_witness :
  (exists o w' d rest,
     extract_frames narrow (conf false) 1 listen3 (frame narrow 18 3 runt3)
       (world 0 0) = (o, w', d)
     /\ o <> Raise DissectError
     /\ received_frames listen3 w' = Raw runt3 :: rest)
  /\ extract_frames narrow (conf true) 1 listen3 (frame narrow 18 3 runt3)
       (world 0 0) = (Raise DissectError, world 0 0, 1%nat).
Proof.
  split.
  - apply (decode_failure_fallback narrow (conf false) 0 listen3
             (frame narrow 18 3 runt3) (world 0 0) 3 3 18);
      try reflexivity; vm_compute; discriminate.
  - apply (decode_failure_fallback narrow (conf true) 0 listen3
             (frame narrow 18 3 runt3) (world 0 0) 3 3 18);
      try reflexivity; vm_compute; discriminate.
Defined.

(** The world in which the shared queue holds the runt as opaque bytes,
    and the one in which it holds the Ethernet frame. *)
Definition world_runt : World (Packet := packet) :=
  list_append class_received_frames (Raw runt3) (world 0 0).
Definition world_ether : World (Packet := packet) :=
  list_append class_received_frames (frame_object listen3 ether16)
    (world 0 0).

Lemma recv_spec_witness :
  (exists w',
     recv narrow (conf false) (kernel []) 1 listen3 4096 world_runt
     = (Return (Some (Raw runt3)), w')
     /\ received_frames listen3 w' = []
     /\ trace w' = [])
  /\ (exists w',
        recv narrow (conf false) (kernel_read_fails 35) 1 listen3 4096
          (world 0 0) = (Return None, w')
        /\ received_frames listen3 w' = []
        /\ trace w' = [Call (SysRead 3 4096)])
  /\ (exists w',
        recv narrow (conf false) (kernel (concat two_frames)) 2 listen3 4096
          (world 0 0) = (Return (Some (frame_object listen3 ether16)), w')
        /\ received_frames listen3 w' = [Raw runt3]
        /\ trace w' = [Call (SysRead 3 4096)]).
Proof.
  split; [| split].
  - destruct (recv_spec narrow (conf false) (kernel []) 1 listen3 4096
                world_runt) as (Hpop & _ & _).
    exact (Hpop (Raw runt3) [] eq_refl).
  - destruct (recv_spec narrow (conf false) (kernel_read_fails 35) 1 listen3
                4096 (world 0 0)) as (_ & Hfail & _).
    exact (Hfail 35 eq_refl eq_refl).
  - destruct (recv_spec narrow (conf false) (kernel (concat two_frames)) 2
                listen3 4096 (world 0 0)) as (_ & _ & Hread).
    destruct (Hread eq_refl eq_refl) as (o & w1 & d & Hrun & _ & Hout).
    vm_compute in Hrun. injection Hrun as <- <- <-.
    exact Hout.
Defined.

Lemma bpf_select_spec_witness :
  (exists w',
     bpf_select (kernel []) [DSock listen3; DSock routed3] None world_runt
     = (Return [DSock listen3; DSock routed3], w')
     /\ trace w' = [])
  /\ (exists w',
        bpf_select (kernel []) [DFile 7; DSock listen3; DFile 8] None
          world_runt
        = (Return [DSock listen3; DFile 7; DFile 8], w')
        /\ trace w' = [Call (SysSelect [DFile 7; DFile 8] (5 # 100))]).
Proof.
  split.
  - destruct (bpf_select_spec (kernel []) [DSock listen3; DSock routed3]
                None world_runt) as (o & w' & Hrun & Hnone & _).
    destruct (Hnone eq_refl) as [-> ->].
    exists world_runt. split; [exact Hrun | reflexivity].
  - destruct (bpf_select_spec (kernel []) [DFile 7; DSock listen3; DFile 8]
                None world_runt) as (o & w' & Hrun & _ & Hsome).
    destruct (Hsome ltac:(discriminate)) as (Ht & _ & Ho).
    rewrite (Ho eq_refl) in Hrun.
    exists w'. split; [exact Hrun | exact Ht].
Defined.

Lemma get_frame_by_class_witness :
  (exists w',
     get_frame routed3 world_ether
     = (Some (Layer "Raw" "" [x61; x62] NoPayload), w')
     /\ received_frames routed3 w' = [])
  /\ (exists w',
        get_frame transceiver3 world_ether
        = (Some (frame_object listen3 ether16), w')
        /\ received_frames transceiver3 w' = []).
Proof.
  split.
  - destruct (get_frame_by_class routed3 world_ether
                (frame_object listen3 ether16) [] eq_refl)
      as (w' & Hq & Hrouted & _).
    exists w'. split; [exact (Hrouted eq_refl) | exact Hq].
  - destruct (get_frame_by_class transceiver3 world_ether
                (frame_object listen3 ether16) [] eq_refl)
      as (w' & Hq & _ & Hplain).
    exists w'. split; [exact (Hplain (or_intror eq_refl)) | exact Hq].
Defined.

(** ** Further properties of the decoder *)

(** X1. [bpf_align] returns the least multiple of the alignment of the
    platform that is not below [bh_h + bh_c]. *)
Theorem bpf_align_least_multiple (plat : Platform) (h c : Z) :
  (alignment plat | bpf_align plat h c)
  /\ h + c <= bpf_align plat h c
  /\ forall m, (alignment plat | m) -> h + c <= m -> bpf_align plat h c <= m.
Proof.
  rewrite bpf_align_round_up. split; [apply Z.divide_factor_r |].
  destruct (alignment_cases plat) as [[-> _] | [-> _]];
    (split; [Z.div_mod_to_equations; lia |]);
    intros m [k ->] Hm; Z.div_mod_to_equations; lia.
Qed.

Lemma bpf_align_least_multiple_witness :
  (4 | bpf_align Toy.narrow 18 3) /\ bpf_align Toy.narrow 18 3 <= 24.
Proof.
  destruct (bpf_align_least_multiple Toy.narrow 18 3) as (Hdiv & _ & Hleast).
  split; [exact Hdiv |].
  apply Hleast; [exists 6; reflexivity | lia].
Defined.

Section DecoderMore.

Context {Packet : Type} `{!Scapy Packet}.
Variable plat : Platform.
Variable conf : Conf.
Implicit Types (w : World (Packet := Packet)) (self : Sock) (b : bytes).

(** X2. Whatever the buffer, and whether it returns, raises or runs on,
    the decoder only appends to the queue of its socket: the frames that
    were queued stay in front, at most one frame is added per activation,
    and no system call is made nor any descriptor flag changed. *)
Theorem extract_frames_only_appends fuel self b w :
  exists added,
    received_frames self (extract_frames plat conf fuel self b w).1.2
    = received_frames self w ++ added
    /\ (length added <= (extract_frames plat conf fuel self b w).2)%nat
    /\ trace (extract_frames plat conf fuel self b w).1.2 = trace w
    /\ kflags (extract_frames plat conf fuel self b w).1.2 = kflags w.
Proof.
  revert b w. induction fuel as [| fuel IH]; intros b w.
  { exists []. simpl. rewrite app_nil_r. auto. }
  cbn [extract_frames].
  destruct (Z.of_nat (length b) <? 20).
  { exists []. simpl. rewrite app_nil_r. repeat split; lia. }
  destruct (bpf_header plat b) as [[[cl dl] hl] |].
  2: { exists []. simpl. rewrite app_nil_r. repeat split; lia. }
  destruct (dl =? 0).
  { exists []. simpl. rewrite app_nil_r. repeat split; lia. }
  destruct (build_frame conf self (py_slice b hl (hl + cl))) as [pkt |].
  2: { exists []. simpl. rewrite app_nil_r. repeat split; lia. }
  set (w1 := list_append (received_frames_loc self) pkt w).
  assert (Hq : received_frames self w1 = received_frames self w ++ [pkt])
    by (apply received_frames_append; reflexivity).
  destruct (Z.of_nat (length b) - bpf_align plat hl cl >=? 20).
  2: { exists [pkt]. simpl. repeat split; [exact Hq | lia]. }
  destruct (IH (py_from b (bpf_align plat hl cl)) w1)
    as (added & Hq' & Hd & Ht & Hk).
  destruct (extract_frames plat conf fuel self _ w1) as [[o w2] d].
  simpl in *. exists (pkt :: added). repeat split; auto.
  - rewrite Hq', Hq, <- app_assoc. reflexivity.
  - simpl. lia.
Qed.

(** Well-formed frames followed by fewer than 20 bytes. *)
Lemma extract_frames_chunks fuel self (chunks : list bytes) (rest : bytes) w :
  Forall (well_formed_frame plat) chunks ->
  debug_dissector conf = false
  \/ Forall (fun c => dissect (guessed_cls self) (captured plat c) <> None)
       chunks ->
  Z.of_nat (length rest) < 20 ->
  (Nat.max 1 (length chunks) <= fuel)%nat ->
  exists w',
    extract_frames plat conf fuel self (concat chunks ++ rest) w
    = (Return tt, w', Nat.max 1 (length chunks))
    /\ received_frames self w'
       = received_frames self w
         ++ map (fun c => frame_object self (captured plat c)) chunks
    /\ trace w' = trace w.
Proof.
  intros Hwf. revert fuel w.
  induction Hwf as [| c chunks Hc Hcs IH]; intros fuel w Hdis Hrest Hfuel.
  - destruct fuel as [| fuel]; [simpl in Hfuel; lia |].
    exists w. simpl concat. rewrite app_nil_l, app_nil_r.
    rewrite extract_frames_short by assumption. auto.
  - destruct fuel as [| fuel]; [simpl in Hfuel; lia |].
    simpl concat. rewrite <- app_assoc.
    rewrite extract_frames_head; [| assumption |].
    2: { destruct Hdis as [? | Hall]; [left; assumption | right].
         inversion Hall; assumption. }
    cbv zeta. set (w1 := list_append _ _ w).
    assert (Hq : received_frames self w1
                 = received_frames self w
                   ++ [frame_object self (captured plat c)])
      by (apply received_frames_append; reflexivity).
    destruct chunks as [| c' chunks'].
    + simpl concat. rewrite app_nil_l.
      destruct (Z.leb_spec 20 (Z.of_nat (length rest))); [lia |].
      exists w1. repeat split; auto.
    + assert (H20 : 20 <= Z.of_nat (length (concat (c' :: chunks') ++ rest))).
      { inversion Hcs as [| ? ? Hc' _]; subst.
        destruct (well_formed_frame_inv plat c' Hc')
          as (_ & _ & _ & _ & _ & _ & _ & Hlen & Hs & _).
        simpl. rewrite !length_app. lia. }
      destruct (Z.leb_spec 20
                  (Z.of_nat (length (concat (c' :: chunks') ++ rest))));
        [| lia].
      destruct (IH fuel w1) as (w' & Hrun & Hq' & Ht).
      { destruct Hdis as [? | Hall]; [left; assumption | right].
        inversion Hall; assumption. }
      { assumption. }
      { simpl in *. lia. }
      exists w'. rewrite Hrun. repeat split.
      * rewrite Hq', Hq, <- app_assoc. reflexivity.
      * rewrite Ht. reflexivity.
Qed.

(** X3. Bytes left over after the last well-formed frame, when there
    are fewer than 20 of them, are ignored: the buffer decodes to the same
    frames as without them, with no error. *)
Theorem extract_frames_ignores_short_tail fuel self (chunks : list bytes)
    (rest : bytes) w :
  Forall (well_formed_frame plat) chunks ->
  debug_dissector conf = false
  \/ Forall (fun c => dissect (guessed_cls self) (captured plat c) <> None)
       chunks ->
  Z.of_nat (length rest) < 20 ->
  (Nat.max 1 (length chunks) <= fuel)%nat ->
  exists w',
    extract_frames plat conf fuel self (concat chunks ++ rest) w
    = (Return tt, w', Nat.max 1 (length chunks))
    /\ received_frames self w'
       = received_frames self w
         ++ map (fun c => frame_object self (captured plat c)) chunks.
Proof.
  intros Hwf Hdis Hrest Hfuel.
  destruct (extract_frames_chunks fuel self chunks rest w Hwf Hdis Hrest Hfuel)
    as (w' & Hrun & Hq & _).
  exists w'. auto.
Qed.

(** X4. A frame whose captured length runs past the end of the buffer
    is queued with the bytes that are there, without error, and the
    decoder stops after it. *)
Theorem extract_frames_truncated fuel self b w caplen datalen hdrlen :
  20 <= Z.of_nat (length b) ->
  bpf_header plat b = Some (caplen, datalen, hdrlen) ->
  datalen <> 0 ->
  debug_dissector conf = false ->
  Z.of_nat (length b) < hdrlen + caplen ->
  extract_frames plat conf (S fuel) self b w
  = (Return tt,
     list_append (received_frames_loc self)
       (frame_object self (py_from b hdrlen)) w,
     1%nat).
Proof.
  intros Hlen Hhdr Hdl Hdbg Hpast.
  destruct (bpf_header_nonneg _ _ _ _ _ Hhdr) as (Hc & _ & Hh).
  assert (Hslice : py_slice b hdrlen (hdrlen + caplen) = py_from b hdrlen).
  { unfold py_slice, py_from. apply take_ge. rewrite length_drop. lia. }
  rewrite (extract_frames_step plat conf fuel self b w caplen datalen hdrlen
             (frame_object self (py_from b hdrlen)) Hlen Hhdr Hdl).
  2: { rewrite Hslice. apply build_frame_object. left. exact Hdbg. }
  pose proof (bpf_align_bounds plat hdrlen caplen) as Hb.
  rewrite Z.geb_leb.
  destruct (Z.leb_spec 20 (Z.of_nat (length b) - bpf_align plat hdrlen caplen));
    [lia | reflexivity].
Qed.

End DecoderMore.

(** ** Laying out a frame and decoding it *)

Lemma byte_of_small (n : Z) :
  0 <= n < 256 ->
  Z.of_N (Byte.to_N (default x00 (Byte.of_N (Z.to_N n)))) = n.
Proof.
  intros Hn. pose proof (Byte.to_of_N_option_map (Z.to_N n)) as H.
  destruct (N.leb_spec (Z.to_N n) 255) as [_ | Hgt]; [| lia].
  destruct (Byte.of_N (Z.to_N n)) as [y |]; [| discriminate].
  simpl in *. injection H as ->. lia.
Qed.

Lemma length_le_bytes (size : nat) (v : Z) : length (le_bytes size v) = size.
Proof. revert v. induction size; intros v; simpl; [| rewrite IHsize]; auto. Qed.

(** [struct.unpack] undoes [struct.pack] on a little-endian field. *)
Lemma le_value_le_bytes (size : nat) (v : Z) :
  0 <= v < 256 ^ Z.of_nat size -> le_value (le_bytes size v) = v.
Proof.
  revert v. induction size as [| size IH]; intros v Hv.
  - simpl in *. lia.
  - cbn [le_bytes le_value].
    rewrite byte_of_small by (apply Z.mod_pos_bound; lia).
    rewrite IH.
    + pose proof (Z.div_mod v 256). lia.
    + rewrite Nat2Z.inj_succ, Z.pow_succ_r in Hv by lia.
      split; [apply Z.div_pos; lia |].
      apply Z.div_lt_upper_bound; lia.
Qed.

Lemma py_slice_at (a m r : bytes) (i j : Z) :
  i = Z.of_nat (length a) -> j = i + Z.of_nat (length m) ->
  py_slice (a ++ m ++ r) i j = m.
Proof.
  intros -> ->. unfold py_slice.
  rewrite Nat2Z.id, drop_app_length.
  replace (Z.to_nat (Z.of_nat (length a) + Z.of_nat (length m)
                     - Z.of_nat (length a))) with (length m) by lia.
  apply take_app_length.
Qed.

Lemma length_zeros (n : nat) : length (zeros n) = n.
Proof. apply length_replicate. Qed.

Lemma frame_layout (plat : Platform) (hdrlen : nat) (datalen : Z)
    (data : bytes) :
  header_end plat <= Z.of_nat hdrlen ->
  let stamp := Z.to_nat (header_end plat - 10) in
  frame plat hdrlen datalen data
  = zeros stamp ++ le_bytes 4 (Z.of_nat (length data))
    ++ le_bytes 4 datalen ++ le_bytes 2 (Z.of_nat hdrlen)
    ++ zeros (hdrlen - (stamp + 10)) ++ data
    ++ zeros (Z.to_nat (bpf_align plat (Z.of_nat hdrlen)
                          (Z.of_nat (length data)))
              - (hdrlen + length data)).
Proof.
  intros Hh stamp. unfold frame.
  replace (if FREEBSD plat || NETBSD plat then 16%nat else 8%nat)
    with stamp
    by (unfold stamp, header_end; destruct (FREEBSD plat || NETBSD plat);
        reflexivity).
  assert (Hstamp : (stamp + 10 <= hdrlen)%nat)
    by (unfold stamp;
        destruct (alignment_cases plat) as [[_ E] | [_ E]]; rewrite E in *;
        lia).
  cbv zeta.
  rewrite !length_app, !length_zeros, !length_le_bytes.
  rewrite <- !app_assoc. simpl (4 + (4 + 2))%nat.
  replace (stamp + 10 + (hdrlen - (stamp + 10) + length data))%nat
    with (hdrlen + length data)%nat by lia.
  reflexivity.
Qed.

(** X5. Round trip between the layout of a frame and the decoder, for a
    little-endian platform: a header with the captured length, the
    on-wire length and the header length at the offsets of the platform,
    followed by the captured bytes and the padding, decodes to exactly
    one frame, built from the captured bytes. *)
Theorem frame_round_trip {Packet : Type} `{!Scapy Packet}
    (plat : Platform) (conf : Conf) fuel (self : Sock)
    (w : World (Packet := Packet)) (hdrlen : nat) (datalen : Z)
    (data : bytes) :
  byteorder plat = LittleEndian ->
  header_end plat <= Z.of_nat hdrlen < 2 ^ 16 ->
  0 < datalen < 2 ^ 32 ->
  Z.of_nat (length data) < 2 ^ 32 ->
  debug_dissector conf = false \/ dissect (guessed_cls self) data <> None ->
  bpf_header plat (frame plat hdrlen datalen data)
  = Some (Z.of_nat (length data), datalen, Z.of_nat hdrlen)
  /\ captured plat (frame plat hdrlen datalen data) = data
  /\ extract_frames plat conf (S fuel) self (frame plat hdrlen datalen data) w
     = (Return tt,
        list_append (received_frames_loc self) (frame_object self data) w,
        1%nat).
Proof.
  intros Hle Hh Hdl Hdata Hdis.
  pose proof (frame_layout plat hdrlen datalen data (proj1 Hh)) as Hlay.
  cbv zeta in Hlay.
  set (stamp := Z.to_nat (header_end plat - 10)) in *.
  set (pad := zeros (_ - (hdrlen + length data))) in Hlay.
  assert (Hstamp : header_end plat = Z.of_nat stamp + 10 /\ (8 <= stamp)%nat).
  { unfold stamp. destruct (alignment_cases plat) as [[_ ->] | [_ ->]]; lia. }
  destruct Hstamp as [Hend Hstamp8].
  assert (Hhdr : bpf_header plat (frame plat hdrlen datalen data)
                 = Some (Z.of_nat (length data), datalen, Z.of_nat hdrlen)).
  { unfold bpf_header, unpack_I, unpack_H, struct_unpack.
    replace (if FREEBSD plat || NETBSD plat then 16 else 8)
      with (Z.of_nat stamp)
      by (unfold stamp, header_end; destruct (FREEBSD plat || NETBSD plat);
          reflexivity).
    rewrite Hlay, Hle.
    rewrite (py_slice_at (zeros stamp)) by (rewrite ?length_zeros, ?length_le_bytes; lia).
    rewrite decide_True by apply length_le_bytes.
    rewrite (app_assoc (zeros stamp)).
    rewrite (py_slice_at (zeros stamp ++ le_bytes 4 _))
      by (rewrite ?length_app, ?length_zeros, ?length_le_bytes; lia).
    rewrite decide_True by apply length_le_bytes.
    rewrite (app_assoc (zeros stamp ++ le_bytes 4 _)).
    rewrite (py_slice_at ((zeros stamp ++ le_bytes 4 _) ++ le_bytes 4 _))
      by (rewrite ?length_app, ?length_zeros, ?length_le_bytes; lia).
    rewrite decide_True by apply length_le_bytes.
    unfold native_value.
    rewrite !le_value_le_bytes
      by (first [change (256 ^ Z.of_nat 4) with (2 ^ 32)
                | change (256 ^ Z.of_nat 2) with (2 ^ 16)]; lia).
    reflexivity. }
  assert (Hcap : captured plat (frame plat hdrlen datalen data) = data).
  { unfold captured, hdrlen_of, caplen_of, fields. rewrite Hhdr. simpl.
    rewrite Hlay.
    rewrite !(app_assoc _ _ (data ++ pad)).
    apply py_slice_at; [| reflexivity].
    rewrite !length_app, !length_zeros, !length_le_bytes. lia. }
  assert (Hwf : well_formed_frame plat (frame plat hdrlen datalen data)).
  { unfold well_formed_frame. rewrite Hhdr.
    repeat split; [lia | lia |].
    pose proof (bpf_align_bounds plat (Z.of_nat hdrlen)
                  (Z.of_nat (length data))) as Hb.
    rewrite Hlay. unfold pad.
    rewrite !length_app, !length_zeros, !length_le_bytes. lia. }
  split; [exact Hhdr |]. split; [exact Hcap |].
  rewrite <- (app_nil_r (frame plat hdrlen datalen data)) at 1.
  rewrite (extract_frames_head plat conf fuel self _ [] w Hwf)
    by (rewrite Hcap; exact Hdis).
  rewrite Hcap. reflexivity.
Qed.

Lemma frame_round_trip_witness :
  captured narrow (frame narrow 18 60 ether16) = ether16
  /\ extract_frames narrow (conf true) 1 listen3 (frame narrow 18 60 ether16)
       (world 0 0)
     = (Return tt, world_ether, 1%nat).
Proof.
  destruct (frame_round_trip narrow (conf true) 0 listen3 (world 0 0) 18 60
              ether16) as (_ & Hcap & Hrun).
  - reflexivity.
  - vm_compute. intuition discriminate.
  - lia.
  - vm_compute. reflexivity.
  - right. discriminate.
  - split; [exact Hcap | exact Hrun].
Defined.

(** ** Receiving several frames *)

Section ReceiveMore.

Context {Packet : Type} `{!Scapy Packet}.
Variable plat : Platform.
Variable conf : Conf.
Variable K : Kernel.
Implicit Types (w : World (Packet := Packet)) (self : Sock) (pkt : Packet).

(** A caller that calls [recv] [n] times in a row and keeps the
    results. *)
Fixpoint recv_many (n : nat) (fuel : nat) self (x : Z) w
    : list (Outcome (option Packet)) * World :=
  match n with
  | O => ([], w)
  | S n =>
      let '(r, w) := recv plat conf K fuel self x w in
      let '(rs, w) := recv_many n fuel self x w in
      (r :: rs, w)
  end.

Lemma recv_buffered fuel self x w pkt rest :
  received_frames self w = pkt :: rest ->
  recv plat conf K fuel self x w
  = (Return (Some (delivered self pkt)),
     list_store (received_frames_loc self) rest w).
Proof.
  intros Hq. unfold recv. rewrite truthy_buffered_frames, Hq.
  rewrite (get_frame_cons _ _ _ _ Hq). reflexivity.
Qed.

Lemma recv_many_buffered (n : nat) fuel self x w (q : list Packet) :
  received_frames self w = q ->
  (n <= length q)%nat ->
  exists w',
    recv_many n fuel self x w
    = (map (fun pkt => Return (Some (delivered self pkt))) (take n q), w')
    /\ received_frames self w' = drop n q
    /\ trace w' = trace w
    /\ kflags w' = kflags w.
Proof.
  revert w q. induction n as [| n IH]; intros w q Hq Hn.
  - exists w. simpl. rewrite drop_0. auto.
  - destruct q as [| pkt rest]; [simpl in Hn; lia |].
    cbn [recv_many]. rewrite (recv_buffered fuel self x w pkt rest Hq).
    destruct (IH (list_store (received_frames_loc self) rest w) rest)
      as (w' & Hrun & Hq' & Ht & Hk).
    { apply received_frames_store. reflexivity. }
    { simpl in Hn. lia. }
    exists w'. rewrite Hrun. simpl. auto.
Qed.

(** X6. The queue is first in, first out, and draining it costs no
    system call: [n] calls to [recv] on a socket that has at least [n]
    buffered frames return the first [n] frames in queue order, leave the
    others queued in order, and make no call to the device. *)
Theorem recv_drains_in_order (n : nat) fuel self x w :
  (n <= length (received_frames self w))%nat ->
  exists w',
    recv_many n fuel self x w
    = (map (fun pkt => Return (Some (delivered self pkt)))
         (take n (received_frames self w)), w')
    /\ received_frames self w' = drop n (received_frames self w)
    /\ trace w' = trace w.
Proof.
  intros Hn.
  destruct (recv_many_buffered n fuel self x w _ eq_refl Hn)
    as (w' & Hrun & Hq & Ht & _).
  exists w'. auto.
Qed.

(** X7. One read serves as many receives as it holds frames: when the
    queue is empty and the device returns a buffer of N well-formed
    frames (followed by fewer than 20 bytes), N calls to [recv] return
    the N frames in arrival order, a single [read] is made, by the first
    call, and the queue is empty again afterwards. *)
Theorem recv_one_read_serves_all fuel self x w (chunks : list bytes)
    (rest : bytes) :
  received_frames self w = [] ->
  k_errno K (trace w) (SysRead (ins self) x) = None ->
  k_read K (trace w) (ins self) x = concat chunks ++ rest ->
  Forall (well_formed_frame plat) chunks ->
  chunks <> [] ->
  Z.of_nat (length rest) < 20 ->
  debug_dissector conf = false
  \/ Forall (fun c => dissect (guessed_cls self) (captured plat c) <> None)
       chunks ->
  (length chunks <= fuel)%nat ->
  exists w',
    recv_many (length chunks) fuel self x w
    = (map (fun c => Return (Some (delivered self
                                     (frame_object self (captured plat c)))))
         chunks, w')
    /\ received_frames self w' = []
    /\ trace w' = trace w ++ [Call (SysRead (ins self) x)].
Proof.
  intros Hq Herr Hdata Hwf Hne Hrest Hdis Hfuel.
  destruct chunks as [| c cs]; [contradiction |].
  cbn [length recv_many].
  unfold recv at 1. rewrite truthy_buffered_frames, Hq.
  unfold os_read. rewrite Herr, Hdata.
  set (w0 := log _ w).
  destruct (extract_frames_chunks plat conf fuel self (c :: cs) rest w0
              Hwf Hdis Hrest) as (w1 & Hrun & Hq1 & Ht1).
  { simpl in *. lia. }
  rewrite Hrun.
  change (received_frames self w0) with (received_frames self w) in Hq1.
  rewrite Hq in Hq1. simpl in Hq1.
  rewrite (get_frame_cons _ _ _ _ Hq1).
  set (w2 := list_store _ _ w1).
  destruct (recv_many_buffered (length cs) fuel self x w2
              (map (fun c => frame_object self (captured plat c)) cs))
    as (w' & Hmany & Hq' & Ht' & _).
  { apply received_frames_store. reflexivity. }
  { rewrite length_map. lia. }
  exists w'. rewrite Hmany. repeat split.
  - rewrite firstn_all2 by (rewrite length_map; lia).
    simpl. f_equal. rewrite map_map. reflexivity.
  - rewrite Hq'. apply drop_ge. rewrite length_map. lia.
  - rewrite Ht'. unfold w2. simpl. rewrite Ht1. reflexivity.
Qed.

End ReceiveMore.

Lemma recv_drains_in_order_witness :
  exists w',
    recv_many narrow (conf false) (kernel []) 1 1 routed3 4096 world_ether
    = ([Return (Some (Layer "Raw" "" [x61; x62] NoPayload))], w')
    /\ received_frames routed3 w' = []
    /\ trace w' = [].
Proof.
  destruct (recv_drains_in_order narrow (conf false) (kernel []) 1 1 routed3
              4096 world_ether) as (w' & Hrun & Hq & Ht).
  - vm_compute. lia.
  - exists w'. repeat split; assumption.
Defined.

Lemma recv_one_read_serves_all_witness :
  exists w',
    recv_many narrow (conf false) (kernel (concat two_frames ++ zeros 7)) 2 2
      listen3 4096 (world 0 0)
    = ([Return (Some (frame_object listen3 ether16));
        Return (Some (Raw runt3))], w')
    /\ received_frames listen3 w' = []
    /\ trace w' = [Call (SysRead 3 4096)].
Proof.
  destruct (recv_one_read_serves_all narrow (conf false)
              (kernel (concat two_frames ++ zeros 7)) 2 listen3 4096
              (world 0 0) two_frames (zeros 7)) as (w' & Hrun & Hq & Ht).
  - reflexivity.
  - reflexivity.
  - reflexivity.
  - exact two_frames_well_formed.
  - discriminate.
  - vm_compute. reflexivity.
  - left. reflexivity.
  - simpl. lia.
  - exists w'. repeat split; assumption.
Defined.

(** ** Further properties of [set_nonblock] *)

Section NonBlockingMore.

Context {Packet : Type} `{!Scapy Packet}.
Variable plat : Platform.
Variable K : Kernel.
Implicit Types (w : World (Packet := Packet)) (self : Sock).

(** The cached flags, when there are some, are those of the kernel. *)
Definition cache_coherent self w : Prop :=
  fd_flags self = None \/ fd_flags self = kflags w !! ins self.

Lemma set_nonblock_cases self (set_flag : bool) w :
  let r := set_nonblock plat K self set_flag w in
  heap r.2 = heap w /\ ins r.1 = ins self
  /\ ((kflags r.2 = kflags w
       /\ (fd_flags r.1 = fd_flags self
           \/ fd_flags self = None /\ is_Some (kflags w !! ins self)
              /\ fd_flags r.1 = kflags w !! ins self))
      \/ exists base,
           (fd_flags self = Some base
            \/ fd_flags self = None /\ kflags w !! ins self = Some base)
           /\ is_Some (kflags w !! ins self)
           /\ kflags r.2
              = <[ins self :=
                    if set_flag then Z.lor base (O_NONBLOCK plat)
                    else Z.land base (Z.lnot (O_NONBLOCK plat))]> (kflags w)
           /\ fd_flags r.1
              = Some (if set_flag then Z.lor base (O_NONBLOCK plat)
                      else Z.land base (Z.lnot (O_NONBLOCK plat)))).
Proof.
  intros r. remember r as r' eqn:Hr. unfold r in Hr. clear r.
  unfold set_nonblock, fcntl_getfl, fcntl_setfl in Hr.
  destruct (fd_flags self) as [c |] eqn:Hfl.
  - destruct (k_errno K (trace w) (SysSetFl (ins self) _)) in Hr.
    + subst r'. simpl. rewrite Hfl. repeat split; auto.
    + destruct (kflags w !! ins self) as [k |] eqn:Hk; subst r'; simpl.
      * repeat split; auto. right. exists c. repeat split; eauto.
      * rewrite Hfl. repeat split; auto.
  - simpl in Hr.
    destruct (k_errno K (trace w) (SysGetFl (ins self))) in Hr.
    { subst r'. simpl. rewrite Hfl. repeat split; auto. }
    destruct (kflags w !! ins self) as [k |] eqn:Hk.
    2: { subst r'. simpl. rewrite Hfl. repeat split; auto. }
    simpl in Hr.
    destruct (k_errno K _ (SysSetFl (ins self) _)) in Hr.
    + subst r'. simpl. repeat split; auto. left. split; eauto.
    + simpl in Hr. rewrite Hk in Hr. subst r'. simpl.
      repeat split; auto. right. exists k. repeat split; eauto.
Qed.

(** X8. [set_nonblock] keeps the cache of the flags coherent with the
    kernel whatever fails: if the cached flags (when present) are those
    the kernel holds before the call, they are so after it. The call
    does not touch the flags of other descriptors nor the queues. *)
Theorem set_nonblock_keeps_cache_coherent self (set_flag : bool) w :
  cache_coherent self w ->
  cache_coherent (set_nonblock plat K self set_flag w).1
    (set_nonblock plat K self set_flag w).2
  /\ ins (set_nonblock plat K self set_flag w).1 = ins self
  /\ heap (set_nonblock plat K self set_flag w).2 = heap w
  /\ forall fd, fd <> ins self ->
       kflags (set_nonblock plat K self set_flag w).2 !! fd = kflags w !! fd.
Proof.
  intros Hc. unfold cache_coherent in *.
  destruct (set_nonblock_cases self set_flag w)
    as (Hheap & Hins & [(Hk & Hfd) | (base & _ & _ & Hk & Hfd)]).
  - repeat split; auto.
    + rewrite Hk, Hins.
      destruct Hfd as [-> | (_ & _ & ->)]; auto.
    + intros fd _. rewrite Hk. reflexivity.
  - repeat split; auto.
    + right. rewrite Hfd, Hk, Hins, lookup_insert_eq. reflexivity.
    + intros fd Hne. rewrite Hk. apply lookup_insert_ne. congruence.
Qed.

(** X9. [set_nonblock] changes nothing but [O_NONBLOCK]: on a socket
    whose cache is coherent, the flags of the descriptor after the call
    agree with those before on every bit outside [O_NONBLOCK], and are
    either unchanged (a call failed) or have [O_NONBLOCK] set or cleared
    as asked. *)
Theorem set_nonblock_touches_only_nonblock self (set_flag : bool) w (k : Z) :
  cache_coherent self w ->
  kflags w !! ins self = Some k ->
  exists k',
    kflags (set_nonblock plat K self set_flag w).2 !! ins self = Some k'
    /\ Z.land k' (Z.lnot (O_NONBLOCK plat)) = Z.land k (Z.lnot (O_NONBLOCK plat))
    /\ (k' = k
        \/ k' = if set_flag then Z.lor k (O_NONBLOCK plat)
                else Z.land k (Z.lnot (O_NONBLOCK plat))).
Proof.
  intros Hc Hkw. unfold cache_coherent in Hc.
  destruct (set_nonblock_cases self set_flag w)
    as (_ & _ & [(Hk & _) | (base & Hbase & _ & Hk & _)]).
  - exists k. rewrite Hk. auto.
  - assert (base = k) as ->.
    { destruct Hbase as [Hfl | [_ Hfl]]; [| congruence].
      destruct Hc as [Hc | Hc]; congruence. }
    rewrite Hk, lookup_insert_eq. eexists. split; [reflexivity |].
    split; [| right; reflexivity].
    destruct set_flag.
    + apply land_lor_lnot.
    + rewrite <- Z.land_assoc, Z.land_diag. reflexivity.
Qed.

(** X10. Once the flags are cached [set_nonblock] does not read them
    again: it makes the single call [F_SETFL], with flags computed from
    the cache, and these replace whatever flags the kernel held (a
    change made to the descriptor behind the socket is lost). *)
Theorem set_nonblock_writes_from_cache self (set_flag : bool) w (c k : Z) :
  fd_flags self = Some c ->
  kflags w !! ins self = Some k ->
  let new_flags :=
    if set_flag then Z.lor c (O_NONBLOCK plat)
    else Z.land c (Z.lnot (O_NONBLOCK plat)) in
  k_errno K (trace w) (SysSetFl (ins self) new_flags) = None ->
  trace (set_nonblock plat K self set_flag w).2
  = trace w ++ [Call (SysSetFl (ins self) new_flags)]
  /\ kflags (set_nonblock plat K self set_flag w).2 !! ins self
     = Some new_flags
  /\ fd_flags (set_nonblock plat K self set_flag w).1 = Some new_flags.
Proof.
  intros Hfl Hk new_flags Hset.
  unfold set_nonblock, fcntl_setfl. rewrite Hfl. fold new_flags.
  rewrite Hset, Hk. simpl. rewrite lookup_insert_eq. auto.
Qed.

End NonBlockingMore.

Lemma set_nonblock_keeps_cache_coherent_witness :
  let r := set_nonblock narrow (kernel []) transceiver3 true (world 2 0) in
  cache_coherent r.1 r.2 /\ fd_flags r.1 = Some 6.
Proof.
  destruct (set_nonblock_keeps_cache_coherent narrow (kernel [])
              transceiver3 true (world 2 0)) as (Hc & _).
  - left. reflexivity.
  - split; [exact Hc | reflexivity].
Defined.

Lemma set_nonblock_touches_only_nonblock_witness :
  exists k',
    kflags (set_nonblock narrow (kernel []) transceiver3 false (world 6 0)).2
      !! 3%nat = Some k'
    /\ Z.land k' (Z.lnot 4) = 2.
Proof.
  destruct (set_nonblock_touches_only_nonblock narrow (kernel [])
              transceiver3 false (world 6 0) 6) as (k' & Hk & Hbits & _).
  - left. reflexivity.
  - reflexivity.
  - exists k'. split; [exact Hk | exact Hbits].
Defined.

(** A socket that cached flags 0 while the descriptor has since got
    flag 8 from elsewhere. *)
Lemma set_nonblock_writes_from_cache_witness :
  let self := set_fd_flags (Some 0) transceiver3 in
  kflags (world 8 0) !! 3%nat = Some 8
  /\ kflags (set_nonblock narrow (kernel []) self true (world 8 0)).2 !! 3%nat
     = Some 4.
Proof.
  intros self. split; [reflexivity |].
  destruct (set_nonblock_writes_from_cache narrow (kernel []) self true
              (world 8 0) 0 8) as (_ & Hk & _).
  - reflexivity.
  - reflexivity.
  - reflexivity.
  - exact Hk.
Defined.

(** ** Further properties of the routed send *)

Section RoutedMore.

Context {Packet : Type} `{!Scapy Packet}.
Variable conf : Conf.
Variable K : Kernel.
Implicit Types (w : World (Packet := Packet)) (self : Sock) (pkt : Packet).

Lemma l3_send_already_bound self pkt w :
  assigned_interface self = send_iff conf pkt ->
  exists o,
    l3_send conf K self pkt w
    = (o, self,
       log (Call (SysWrite (ins self) (str (encap (guessed_cls self) pkt)))) w).
Proof.
  intros Heq. unfold l3_send. rewrite bool_decide_eq_false_2 by tauto.
  unfold send.
  destruct (k_errno K (trace w) _); eexists; reflexivity.
Qed.

Lemma l3_send_rebound self pkt w :
  assigned_interface self <> send_iff conf pkt ->
  k_errno K (trace w) (SysBIOCSETIF (ins self) (send_iff conf pkt)) = None ->
  exists o,
    l3_send conf K self pkt w
    = (o, set_assigned_interface (send_iff conf pkt) self,
       log (Call (SysWrite (ins self) (str (encap (guessed_cls self) pkt))))
         (log (Call (SysBIOCSETIF (ins self) (send_iff conf pkt))) w)).
Proof.
  intros Hne Hok. unfold l3_send. rewrite bool_decide_eq_true_2 by assumption.
  unfold ioctl_BIOCSETIF. rewrite Hok. unfold send. simpl.
  destruct (k_errno K _ (SysWrite _ _)); eexists; reflexivity.
Qed.

(** X11. A rebind that fails aborts the send: [L3bpfSocket.send] raises
    [Scapy_Exception] after the one [BIOCSETIF] call, writes nothing to
    the device and leaves the socket bound as it was. *)
Theorem l3_send_rebind_failure self pkt w (e : Z) :
  assigned_interface self <> send_iff conf pkt ->
  k_errno K (trace w) (SysBIOCSETIF (ins self) (send_iff conf pkt)) = Some e ->
  exists msg,
    l3_send conf K self pkt w
    = (Raise (Scapy_Exception msg), self,
       log (Call (SysBIOCSETIF (ins self) (send_iff conf pkt))) w).
Proof.
  intros Hne Hfail. unfold l3_send.
  rewrite bool_decide_eq_true_2 by assumption.
  unfold ioctl_BIOCSETIF. rewrite Hfail. eexists. reflexivity.
Qed.

(** X12. The socket remembers the interface it is bound to: after a
    send whose rebind, if one was needed, succeeded, the socket is bound
    to the interface chosen for the packet, and a following send of a
    packet for which the same interface is chosen makes no [BIOCSETIF]
    call, only the write. *)
Theorem l3_send_same_interface_no_rebind self pkt1 pkt2 w :
  send_iff conf pkt2 = send_iff conf pkt1 ->
  assigned_interface self = send_iff conf pkt1
  \/ k_errno K (trace w) (SysBIOCSETIF (ins self) (send_iff conf pkt1)) = None ->
  let first := l3_send conf K self pkt1 w in
  let second := l3_send conf K first.1.2 pkt2 first.2 in
  assigned_interface first.1.2 = send_iff conf pkt1
  /\ trace second.2
     = trace first.2
       ++ [Call (SysWrite (ins self) (str (encap (guessed_cls self) pkt2)))]
  /\ assigned_interface second.1.2 = send_iff conf pkt1.
Proof.
  intros Hsame Hok first second.
  assert (Hfirst : assigned_interface first.1.2 = send_iff conf pkt1
                   /\ ins first.1.2 = ins self
                   /\ guessed_cls first.1.2 = guessed_cls self).
  { unfold first.
    destruct (decide (assigned_interface self = send_iff conf pkt1))
      as [Heq | Hne].
    - destruct (l3_send_already_bound self pkt1 w Heq) as [o ->]. auto.
    - destruct Hok as [? | Hok]; [contradiction |].
      destruct (l3_send_rebound self pkt1 w Hne Hok) as [o ->]. auto. }
  destruct Hfirst as (Hbound & Hins & Hcls).
  split; [exact Hbound |].
  unfold second.
  destruct (l3_send_already_bound first.1.2 pkt2 first.2) as [o ->].
  { rewrite Hsame. exact Hbound. }
  simpl. rewrite Hins, Hcls. auto.
Qed.

End RoutedMore.

Lemma l3_send_rebind_failure_witness :
  let K := {| k_errno := fun _ c =>
                match c with SysBIOCSETIF _ _ => Some 6 | _ => None end;
              k_read := fun _ _ _ => [];
              k_write := fun _ _ s => Z.of_nat (length s);
              k_select := fun _ rl _ => rl |} in
  let pkt := Layer "IP" "192.0.2.7" [x45] NoPayload in
  exists msg,
    l3_send (conf false) K routed3 pkt (world 0 0)
    = (Raise (Scapy_Exception msg), routed3,
       log (Call (SysBIOCSETIF 3 "em1")) (world 0 0)).
Proof.
  intros K pkt.
  destruct (l3_send_rebind_failure (conf false) K routed3 pkt (world 0 0) 6)
    as [msg Hrun].
  - discriminate.
  - reflexivity.
  - exists msg. exact Hrun.
Defined.

Lemma l3_send_same_interface_no_rebind_witness :
  let pkt1 := Layer "IP" "192.0.2.7" [x45] NoPayload in
  let pkt2 := Layer "IP" "192.0.2.9" [x45; x00] NoPayload in
  let first := l3_send (conf false) (kernel []) routed3 pkt1 (world 0 0) in
  let second := l3_send (conf false) (kernel []) first.1.2 pkt2 first.2 in
  trace first.2
  = [Call (SysBIOCSETIF 3 "em1"); Call (SysWrite 3 (str (encap Ether pkt1)))]
  /\ trace second.2
     = trace first.2 ++ [Call (SysWrite 3 (str (encap Ether pkt2)))].
Proof.
  intros pkt1 pkt2 first second.
  destruct (l3_send_same_interface_no_rebind (conf false) (kernel []) routed3
              pkt1 pkt2 (world 0 0)) as (_ & Ht & _).
  - reflexivity.
  - right. reflexivity.
  - split; [reflexivity | exact Ht].
Defined.

(** ** Further properties of the multiplexer *)

(** X13. [isBPFSocket] holds of every socket of the three classes, and
    of nothing else: the transceiver class, which the test does not name,
    is a subclass of the listen class, which it names twice. *)
Theorem isBPFSocket_every_socket (d : Desc) :
  isBPFSocket d = true <-> exists s, d = DSock s.
Proof.
  split.
  - destruct d as [s | fd]; [eauto | discriminate].
  - intros [s ->]. unfold isBPFSocket, isinstance.
    destruct (sock_class s); reflexivity.
Qed.

Section MultiplexerMore.

Context {Packet : Type} `{!Scapy Packet}.
Variable K : Kernel.
Implicit Types (w : World (Packet := Packet)) (d : Desc).



End MultiplexerMore.

(** ** The constructor, the link type and the close *)

Lemma string_app_assoc (a b c : string) : (a +:+ b) +:+ c = a +:+ b +:+ c.
Proof.
  induction a as [| x a IH]; [reflexivity |].
  change (String x ((a +:+ b) +:+ c) = String x (a +:+ b +:+ c)).
  f_equal. exact IH.
Qed.

Section DeviceMore.

Variable plat : Platform.
Variable OPENBSD : bool.
Variable conf : Conf.
Variable sconf : SocketConf.
Variable D : DevKernel.

(** X15. Closing twice is closing once: after a [close] that returned,
    on a socket that was not closed, [fileno] is [None] and a second
    [close] makes no call and changes nothing. *)
Theorem close_idempotent (h h1 : Handle) (l l1 : DevLog) :
  h_closed h = false ->
  close D h l = (DevOk h1, l1) ->
  fileno h1 = None
  /\ close D h1 l1 = (DevOk h1, l1)
  /\ (calls l1 = calls l
      \/ exists fd, h_ins h = Some fd /\ calls l1 = calls l ++ [OsClose fd]).
Proof.
  unfold close, fileno, dev_call. intros Hopen.
  destruct (h_ins h) as [fd |] eqn:Hins; rewrite ?Hopen; simpl.
  - destruct (d_errno D (calls l) (OsClose fd)); [discriminate |].
    intros [= <- <-]. simpl. repeat split; eauto.
  - intros [= <- <-]. rewrite Hins. repeat split; auto.
Qed.




Lemma nonempty_iff (s : string) : nonempty s = true <-> s <> ""%string.
Proof. destruct s; simpl; split; congruence. Qed.

(** X17. The filter that the constructor attaches: none when filters
    are disabled; the filter of the caller as it is (the empty one
    included) when no exception filter is configured; and otherwise
    always a filter, which ends with [not (<exception filter>)], after
    the filter of the caller in parentheses and [and] when the caller
    gave a non-empty one. *)
Theorem init_filter_cases (filter : option string) (nofilter : bool) :
  (nofilter = true -> init_filter sconf filter nofilter = None)
  /\ (nofilter = false -> except_filter sconf = ""%string ->
      init_filter sconf filter nofilter = filter)
  /\ (nofilter = false -> except_filter sconf <> ""%string ->
      exists before,
        init_filter sconf filter nofilter
        = Some (before +:+ "not (" +:+ except_filter sconf +:+ ")")
        /\ (before = ""%string /\ (filter = None \/ filter = Some ""%string)
            \/ exists f, filter = Some f /\ f <> ""%string
                         /\ before = "(" +:+ f +:+ ") and ")).
Proof.
  unfold init_filter. split; [intros ->; reflexivity |].
  split; intros -> Hex.
  - rewrite Hex. reflexivity.
  - apply nonempty_iff in Hex. rewrite Hex.
    destruct filter as [f |]; [| exists ""%string; auto].
    destruct (nonempty f) eqn:Hf.
    + exists ("(" +:+ f +:+ ") and "). split.
      * rewrite !string_app_assoc. reflexivity.
      * right. exists f. apply nonempty_iff in Hf. auto.
    + exists ""%string. split; [reflexivity |]. left.
      destruct f; [auto | discriminate].
Qed.

(** X18. The class guessed for the link type: when the ioctl fails, or
    when the link type reported is not in the table (and is not the
    loopback type of OpenBSD), Ethernet is used and one warning is
    recorded; when the table has the link type, its class is used and
    nothing is recorded. In all cases one ioctl is made and nothing is
    raised. *)
Theorem guess_cls_fallback (fd : nat) (l : DevLog) :
  let r := guess_cls OPENBSD sconf D fd l in
  let dlt := (d_value D (calls l) fd BIOCGDLT).1 in
  calls r.2 = calls l ++ [DevIoctl fd BIOCGDLT]
  /\ (is_Some (d_errno D (calls l) (DevIoctl fd BIOCGDLT)) ->
      r.1 = DevOk Ether
      /\ warnings r.2
         = warnings l
           ++ ["BIOCGDLT failed: unable to guess type. Using Ethernet !"%string])
  /\ (d_errno D (calls l) (DevIoctl fd BIOCGDLT) = None ->
      OPENBSD = false \/ dlt <> 12 ->
      match l2types sconf !! dlt with
      | Some cls => r.1 = DevOk cls /\ warnings r.2 = warnings l
      | None =>
          r.1 = DevOk Ether
          /\ warnings r.2
             = warnings l ++ ["Unable to guess type. Using Ethernet !"%string]
      end).
Proof.
  intros r dlt. unfold r, guess_cls, dev_call.
  destruct (d_errno D (calls l) (DevIoctl fd BIOCGDLT)) as [e |] eqn:He.
  - simpl. repeat split; auto. discriminate.
  - fold dlt. split.
    + destruct (OPENBSD && (dlt =? 12)); [reflexivity |].
      destruct (l2types sconf !! dlt); reflexivity.
    + split; [intros [? [=]] |]. intros _ Hnot.
      assert (OPENBSD && (dlt =? 12) = false) as ->.
      { destruct Hnot as [-> | Hne]; [reflexivity |].
        apply andb_false_iff. right. apply Z.eqb_neq. exact Hne. }
      destruct (l2types sconf !! dlt); auto.
Qed.

End DeviceMore.

(** A device on which the calls selected by [fails] fail; it hands out
    descriptor 3 of [/dev/bpf0] and reports link type [dlt]. *)
Definition device (fails : DevCall -> bool) (dlt : Z) : DevKernel :=
  {| d_errno := fun _ c => if fails c then Some 5 else None;
     d_handle := fun _ => (3%nat, 0);
     d_value := fun _ _ _ => (dlt, 0) |}.

Definition no_log : DevLog := {| calls := []; warnings := [] |}.

Definition socket_conf (ex : string) : SocketConf :=
  {| sniff_promisc := true; except_filter := ex;
     l2types := {[ 1 := Ether; 0 := Loopback ]} |}.

Lemma close_idempotent_witness :
  let h := {| h_closed := false; h_ins := Some 3%nat |} in
  let h1 := {| h_closed := true; h_ins := None |} in
  let l1 := {| calls := [OsClose 3]; warnings := [] |} in
  close (device (fun _ => false) 1) h no_log = (DevOk h1, l1)
  /\ fileno h1 = None
  /\ close (device (fun _ => false) 1) h1 l1 = (DevOk h1, l1).
Proof.
  intros h h1 l1. split; [reflexivity |].
  destruct (close_idempotent (device (fun _ => false) 1) h h1 no_log l1)
    as (Hno & Hagain & _).
  - reflexivity.
  - reflexivity.
  - split; [exact Hno | exact Hagain].
Defined.

Lemma init_filter_cases_witness :
  init_filter (socket_conf "port 22") (Some "tcp"%string) false
  = Some "(tcp) and not (port 22)"%string
  /\ init_filter (socket_conf "port 22") (Some "tcp"%string) true = None
  /\ init_filter (socket_conf "") (Some ""%string) false = Some ""%string.
Proof.
  destruct (init_filter_cases (socket_conf "port 22") (Some "tcp"%string)
              false) as (_ & _ & Hex).
  destruct (init_filter_cases (socket_conf "port 22") (Some "tcp"%string)
              true) as (Hoff & _).
  destruct (init_filter_cases (socket_conf "") (Some ""%string) false)
    as (_ & Hplain & _).
  split; [| split].
  - destruct (Hex eq_refl ltac:(discriminate)) as (before & Hrun & _).
    reflexivity.
  - exact (Hoff eq_refl).
  - exact (Hplain eq_refl eq_refl).
Defined.

Lemma guess_cls_fallback_witness :
  let r := guess_cls false (socket_conf "") (device (fun _ => false) 113) 3
             no_log in
  r.1 = DevOk Ether
  /\ warnings r.2 = ["Unable to guess type. Using Ethernet !"%string].
Proof.
  destruct (guess_cls_fallback false (socket_conf "")
              (device (fun _ => false) 113) 3 no_log) as (_ & _ & Hok).
  exact (Hok eq_refl (or_introl eq_refl)).
Defined.


(** ** Reads that bring no frame, and a descriptor that cannot be
    switched *)

Section ReceiveEdges.

Context {Packet : Type} `{!Scapy Packet}.
Variable plat : Platform.
Variable conf : Conf.
Variable K : Kernel.
Implicit Types (w : World (Packet := Packet)) (self : Sock).

(** What [recv] adds to the trace when the queue is empty: the read,
    then at most a warning. *)
Lemma recv_reads fuel self x w :
  received_frames self w = [] ->
  exists rest,
    trace (recv plat conf K fuel self x w).2
    = trace w ++ Call (SysRead (ins self) x) :: rest
    /\ Forall (fun e => exists msg, e = Warning msg) rest.
Proof.
  intros Hq. unfold recv. rewrite truthy_buffered_frames, Hq. unfold os_read.
  destruct (k_errno K (trace w) _) as [e |].
  - destruct (e =? EAGAIN plat); simpl.
    + exists []. auto.
    + exists [Warning "BPF recv()"]. rewrite <- app_assoc.
      split; [reflexivity |]. repeat constructor. eauto.
  - set (w1 := log _ w).
    destruct (extract_frames_effect plat conf fuel self
                (k_read K (trace w) (ins self) x) w1) as (_ & _ & Ht & _).
    destruct (extract_frames plat conf fuel self _ w1) as [[o w2] d].
    simpl in Ht. exists [].
    destruct o as [[] | e |]; simpl; try (split; [exact Ht | constructor]).
    destruct (get_frame_head self w2) as (_ & _ & Ht' & _).
    destruct (get_frame self w2). simpl in *.
    split; [congruence | constructor].
Qed.

(** X19. A read that brings fewer than 20 bytes, the empty read
    included, brings no frame: [recv] on an empty queue makes its one
    read, returns [None] and leaves the queue empty. *)
Theorem recv_short_read fuel self x w :
  received_frames self w = [] ->
  k_errno K (trace w) (SysRead (ins self) x) = None ->
  Z.of_nat (length (k_read K (trace w) (ins self) x)) < 20 ->
  exists w',
    recv plat conf K (S fuel) self x w = (Return None, w')
    /\ received_frames self w' = []
    /\ trace w' = trace w ++ [Call (SysRead (ins self) x)].
Proof.
  intros Hq Herr Hshort. unfold recv.
  rewrite truthy_buffered_frames, Hq. unfold os_read. rewrite Herr.
  rewrite extract_frames_short by assumption.
  rewrite get_frame_nil by exact Hq.
  eexists. split; [reflexivity |]. split; [exact Hq | reflexivity].
Qed.

(** X20. When the flags of the descriptor cannot be read,
    [nonblock_recv] on an empty queue goes on to read all the same: the
    flags of the descriptor are never changed, so the read is made in
    whatever mode the descriptor was, and no [F_SETFL] call is made. *)
Theorem nonblock_recv_without_flags fuel self w :
  received_frames self w = [] ->
  fd_flags self = None ->
  (forall t, is_Some (k_errno K t (SysGetFl (ins self)))) ->
  let r := nonblock_recv plat conf K fuel self w in
  kflags r.2 = kflags w
  /\ r.1.2 = self
  /\ (exists before after,
        trace r.2
        = trace w ++ before
          ++ Call (SysRead (ins self) (BPF_BUFFER_LENGTH plat)) :: after
        /\ Forall (fun e => forall f, e <> Call (SysSetFl (ins self) f))
             (before ++ after)).
Proof.
  intros Hq Hfl Hget r. unfold r, nonblock_recv.
  rewrite truthy_buffered_frames, Hq.
  assert (Hset : forall (b : bool) w0,
            set_nonblock plat K self b w0
            = (self,
               log (Warning "Can't get flags on this file descriptor !")
                 (log (Call (SysGetFl (ins self))) w0))).
  { intros b w0. unfold set_nonblock, fcntl_getfl. rewrite Hfl.
    destruct (Hget (trace w0)) as [e ->]. reflexivity. }
  rewrite Hset.
  set (w1 := log _ (log _ w)).
  pose proof (recv_effect plat conf K fuel self (BPF_BUFFER_LENGTH plat) w1)
    as Hk.
  destruct (recv_reads fuel self (BPF_BUFFER_LENGTH plat) w1 Hq)
    as (rest & Ht & Hrest).
  destruct (recv plat conf K fuel self (BPF_BUFFER_LENGTH plat) w1)
    as [o w2].
  simpl in Hk, Ht.
  assert (Hwarn : Forall (fun e => forall f, e <> Call (SysSetFl (ins self) f))
                    rest).
  { eapply Forall_impl; [exact Hrest |]. intros e [msg ->] f. discriminate. }
  destruct o as [pkt | e |].
  - rewrite Hset. simpl. split; [exact Hk |]. split; [reflexivity |].
    exists [Call (SysGetFl (ins self));
            Warning "Can't get flags on this file descriptor !"],
           (rest ++ [Call (SysGetFl (ins self));
                     Warning "Can't get flags on this file descriptor !"]).
    split.
    + rewrite Ht. rewrite <- ?app_assoc. simpl. rewrite <- ?app_assoc.
      reflexivity.
    + repeat (apply Forall_cons; split; [discriminate |]).
      apply Forall_app. split; [exact Hwarn |].
      repeat constructor; discriminate.
  - simpl. split; [exact Hk |]. split; [reflexivity |].
    exists [Call (SysGetFl (ins self));
            Warning "Can't get flags on this file descriptor !"], rest.
    split.
    + rewrite Ht. rewrite <- ?app_assoc. reflexivity.
    + repeat (apply Forall_cons; split; [discriminate |]). exact Hwarn.
  - simpl. split; [exact Hk |]. split; [reflexivity |].
    exists [Call (SysGetFl (ins self));
            Warning "Can't get flags on this file descriptor !"], rest.
    split.
    + rewrite Ht. rewrite <- ?app_assoc. reflexivity.
    + repeat (apply Forall_cons; split; [discriminate |]). exact Hwarn.
Qed.

End ReceiveEdges.

Lemma extract_frames_ignores_short_tail_witness :
  exists w',
    extract_frames narrow (conf false) 2 listen3
      (concat two_frames ++ zeros 19) (world 0 0) = (Return tt, w', 2%nat)
    /\ received_frames listen3 w'
       = [frame_object listen3 ether16; Raw runt3].
Proof.
  destruct (extract_frames_ignores_short_tail narrow (conf false) 2 listen3
              two_frames (zeros 19) (world 0 0)) as (w' & Hrun & Hq).
  - exact two_frames_well_formed.
  - left. reflexivity.
  - vm_compute. reflexivity.
  - simpl. lia.
  - exists w'. split; [exact Hrun | exact Hq].
Defined.

(** A header that announces 100 captured bytes, followed by 6. *)
Definition cut_short : bytes :=
  zeros 8 ++ le_bytes 4 100 ++ le_bytes 4 100 ++ le_bytes 2 18
  ++ [x01; x02; x03; x04; x05; x06].

Lemma extract_frames_truncated_witness :
  extract_frames narrow (conf false) 1 listen3 cut_short (world 0 0)
  = (Return tt,
     list_append class_received_frames
       (Raw [x01; x02; x03; x04; x05; x06]) (world 0 0),
     1%nat).
Proof.
  refine (extract_frames_truncated narrow (conf false) 0 listen3 cut_short
            (world 0 0) 100 100 18 _ _ _ _ _).
  - vm_compute. discriminate.
  - reflexivity.
  - discriminate.
  - reflexivity.
  - vm_compute. reflexivity.
Defined.

Lemma recv_short_read_witness :
  exists w',
    recv narrow (conf false) (kernel []) 1 listen3 4096 (world 0 0)
    = (Return None, w')
    /\ received_frames listen3 w' = []
    /\ trace w' = [Call (SysRead 3 4096)].
Proof.
  destruct (recv_short_read narrow (conf false) (kernel []) 0 listen3 4096
              (world 0 0)) as (w' & Hrun & Hq & Ht).
  - reflexivity.
  - reflexivity.
  - vm_compute. reflexivity.
  - exists w'. repeat split; assumption.
Defined.

(** A kernel on which [F_GETFL] fails and reads would block. *)
Definition kernel_no_flags : Kernel :=
  {| k_errno := fun _ c =>
       match c with
       | SysGetFl _ => Some 9
       | SysRead _ _ => Some 35
       | _ => None
       end;
     k_read := fun _ _ _ => [];
     k_write := fun _ _ s => Z.of_nat (length s);
     k_select := fun _ rl _ => rl |}.

Lemma nonblock_recv_without_flags_witness :
  let r := nonblock_recv narrow (conf false) kernel_no_flags 1 transceiver3
             (world 0 0) in
  kflags r.2 = kflags (world 0 0)
  /\ r.1.1 = Return None
  /\ In (Call (SysRead 3 4096)) (trace r.2).
Proof.
  intros r.
  destruct (nonblock_recv_without_flags narrow (conf false) kernel_no_flags 1
              transceiver3 (world 0 0)) as (Hk & _ & _).
  - reflexivity.
  - reflexivity.
  - intros t. eexists. reflexivity.
  - split; [exact Hk |]. split; [reflexivity |].
    vm_compute. tauto.
Defined.
